(** * summer: the request dispatch path of [app.go]

    A shallow embedding of [app.ServeHTTP], [app.HandleFunc] and [New]
    together with the properties of the routing priority, the readiness /
    liveness counter and the admission gate. *)

From Stdlib Require Import ZArith Lia.
From stdpp Require Import base list strings.

Local Open Scope string_scope.
Local Open Scope list_scope.
Local Open Scope Z_scope.

(** ** Go primitives used by the file *)

(** [int64] arithmetic of [sync/atomic]: two's complement wrap-around. *)
Module Int64.
Definition min_int : Z := - 2 ^ 63.
Definition max_int : Z := 2 ^ 63 - 1.
Definition modulus : Z := 2 ^ 64.

Definition in_range (x : Z) : Prop := min_int <= x <= max_int.

Definition wrap (x : Z) : Z := (x - min_int) mod modulus + min_int.

Definition add (x y : Z) : Z := wrap (x + y).
End Int64.

(** [net/http] status codes. *)
Definition StatusOK : Z := 200.
Definition StatusInternalServerError : Z := 500.

(** The line feed written between two lines of a report. *)
Definition newline : string := String (Ascii.ascii_of_nat 10) EmptyString.

(** [strings.HasPrefix s prefix]. *)
Fixpoint HasPrefix (s prefix : string) : bool :=
  match prefix with
  | EmptyString => true
  | String p prefix' =>
      match s with
      | EmptyString => false
      | String c s' => if Ascii.eqb c p then HasPrefix s' prefix' else false
      end
  end.

(** A Go [error] value: [None] is [nil], [Some msg] is an error whose
    [Error()] string is [msg]. *)
Definition error : Type := option string.

(** [chan struct{}]: the elements carry no data, so a buffered channel is
    its capacity and the number of buffered elements. *)
Record chan : Type := mkChan { chan_cap : Z; chan_len : Z }.

(** [make(chan struct{}, n)] *)
Definition make_chan (n : Z) : chan := {| chan_cap := n; chan_len := 0 |}.

(** [ch <- struct{}{}]: [None] when the buffer is full (the sender parks). *)
Definition chan_send (ch : chan) : option chan :=
  if chan_len ch <? chan_cap ch
  then Some {| chan_cap := chan_cap ch; chan_len := chan_len ch + 1 |}
  else None.

(** [<-ch]: [None] when the buffer is empty (the receiver parks). *)
Definition chan_recv (ch : chan) : option chan :=
  if 0 <? chan_len ch
  then Some {| chan_cap := chan_cap ch; chan_len := chan_len ch - 1 |}
  else None.

(** The part of [http.Request] the dispatcher reads: [req.URL.Path] and
    the request's [context.Context], which is opaque here. *)
Record Request : Type := mkRequest { URL_Path : string; req_ctx : nat }.

(** ** Effects of one goroutine

    A call either returns, unwinds its goroutine ([Panicked]: a panic, or
    [runtime.Goexit]; Go runs the deferred calls in both cases), or never
    ends ([Blocked]: the goroutine is parked for ever, on a channel
    operation or inside code that waits without end, and no deferred call
    runs).  Calls thread a state and append to a log of observable
    events. *)
Inductive result (A : Type) : Type :=
| Returned (x : A)
| Panicked
| Blocked.
Arguments Returned {A} x.
Arguments Panicked {A}.
Arguments Blocked {A}.

Section GoMonad.
Context {E S : Type}.

Definition Go (A : Type) : Type := S -> result A * S * list E.

Definition ret {A} (x : A) : Go A := fun s => (Returned x, s, []).

Definition bind {A B} (m : Go A) (k : A -> Go B) : Go B :=
  fun s =>
    match m s with
    | (Returned x, s1, t1) =>
        let '(r, s2, t2) := k x s1 in (r, s2, t1 ++ t2)
    | (Panicked, s1, t1) => (Panicked, s1, t1)
    | (Blocked, s1, t1) => (Blocked, s1, t1)
    end.

Definition get : Go S := fun s => (Returned s, s, []).
Definition put (s : S) : Go unit := fun _ => (Returned tt, s, []).
Definition emit (e : E) : Go unit := fun s => (Returned tt, s, [e]).
Definition panic {A} : Go A := fun s => (Panicked, s, []).
Definition park {A} : Go A := fun s => (Blocked, s, []).

(** A call into code outside this file, known by its outcome. *)
Definition call (r : result unit) : Go unit := fun s => (r, s, []).

(** [defer deferred(); body]: the deferred call runs when [body] returns
    or unwinds, and the unwinding of [body] goes on afterwards.  A
    goroutine parked inside [body] never reaches it. *)
Definition with_defer {A} (deferred : Go unit) (body : Go A) : Go A :=
  fun s =>
    match body s with
    | (Blocked, s1, t1) => (Blocked, s1, t1)
    | (r, s1, t1) =>
        match deferred s1 with
        | (Returned _, s2, t2) => (r, s2, t1 ++ t2)
        | (Panicked, s2, t2) => (Panicked, s2, t1 ++ t2)
        | (Blocked, s2, t2) => (Blocked, s2, t1 ++ t2)
        end
    end.
End GoMonad.
Arguments Go : clear implicits.

Notation "x <- m ;; k" := (bind m (fun x => k))
  (at level 100, m at next level, right associativity).
Notation "m ;;; k" := (bind m (fun _ => k))
  (at level 100, right associativity).

(** ** The dispatcher *)

Section Summer.
(** The application's [Context] type [T]. *)
Context {T : Type}.

(** Observable actions of a request, in the order they happen. *)
Inductive event : Type :=
| EvCheck (name : string) (err : error)   (* a registered check ran *)
| EvRespond (status : Z) (body : string)  (* [respondInternal] *)
| EvProm (path : string)                  (* [a.hProm.ServeHTTP] *)
| EvProf (path : string)                  (* [a.hProf.ServeHTTP] *)
| EvNotFound (path : string)              (* [a.mux] has no route for it *)
| EvAcquire                               (* [<-a.cc] received a permit *)
| EvRelease                               (* [a.cc <- struct{}{}] sent it back *)
| EvFactory (c : T)                       (* [a.cf(rw, req)] built [c] *)
| EvDefer (c : T)                         (* [defer c.Perform()] *)
| EvInject (c : T)                        (* [a.Inject(c)] *)
| EvInvoke (pattern : string) (c : T)     (* [fn(c)] of the route *)
| EvPerform (c : T).                      (* [c.Perform()] *)

(** [HandlerFunc[T]]: the application's handler; what matters to the
    dispatcher is whether the call returns, unwinds (a panic or
    [runtime.Goexit]) or parks its goroutine for ever. *)
Definition HandlerFunc : Type := T -> result unit.

(** [ContextFactory[T]] *)
Definition ContextFactory : Type := Request -> T.

(** The collaborators [promhttp.Handler()] and the [pprof] mux, known by
    the outcome of serving a request. *)
Definition ExternalHandler : Type := Request -> result unit.

Record options : Type := mkOptions {
  concurrency : Z;
  readinessCascade : Z;
  readinessPath : string;
  livenessPath : string;
  metricsPath : string;
}.

(** [Option]: a function applied to [&a.opts]. *)
Definition Option_ : Type := options -> options.

(** Modelled from the spec: the [Registry] collaborator is declared
    outside [app.go].  Its checks are kept in the order [Check] invokes
    them; a check reports an error or [nil], and what it reports is a
    function of the context of the request, which stands for all that the
    check reads. *)
Record Registry : Type := mkRegistry {
  checks : list (string * (nat -> error));
}.

(** Modelled from the spec: [NewRegistry] has no check registered. *)
Definition NewRegistry : Registry := {| checks := [] |}.

(** Modelled from the spec: [Registry.Check(ctx, fn)] calls [fn] once per
    registered check, synchronously, one after the other.  [fn] is a
    closure over local variables of the caller, here a transformer of
    their values [St]. *)
Fixpoint Check {S St : Type} (cs : list (string * (nat -> error))) (ctx : nat)
    (fn : string -> error -> St -> St) (st : St) : Go event S St :=
  match cs with
  | [] => ret st
  | (name, chk) :: cs' =>
      let err := chk ctx in
      emit (EvCheck name err) ;;;
      Check cs' ctx fn (fn name err st)
  end.

(** Modelled from the spec: [Registry.Inject(c)] populates the
    dependencies of [c]. *)
Definition Inject {S} (r : Registry) (c : T) : Go event S unit :=
  emit (EvInject c).

(** [c.Perform()], the finalize operation of [Context]. *)
Definition Perform {S} (c : T) : Go event S unit := emit (EvPerform c).

(** [http.ServeMux]: the route table, a handler function per pattern.
    Which pattern the standard library selects for a request, and which
    patterns [Handle] accepts, are parameters. *)
Definition ServeMux : Type := list (string * HandlerFunc).

Variable ServeMux_find : list string -> Request -> option string.
Variable ServeMux_accepts : list string -> string -> bool.

Fixpoint route_of (m : ServeMux) (pattern : string) : option HandlerFunc :=
  match m with
  | [] => None
  | (p, fn) :: m' => if String.eqb p pattern then Some fn else route_of m' pattern
  end.

(** [Handle] of [http.ServeMux]: panics on a pattern it does not accept. *)
Definition ServeMux_Handle (m : ServeMux) (pattern : string) (fn : HandlerFunc)
    : result ServeMux :=
  if ServeMux_accepts (map fst m) pattern
  then Returned (m ++ [(pattern, fn)])
  else Panicked.

Record app : Type := mkApp {
  registry : Registry;
  cf : ContextFactory;
  opts : options;
  mux : ServeMux;
  hProm : ExternalHandler;
  hProf : ExternalHandler;
  cc : option chan;
  readinessFailed : Z;
}.

Definition set_cc (c : option chan) (a : app) : app :=
  {| registry := registry a; cf := cf a; opts := opts a; mux := mux a;
     hProm := hProm a; hProf := hProf a;
     cc := c; readinessFailed := readinessFailed a |}.

Definition set_readinessFailed (v : Z) (a : app) : app :=
  {| registry := registry a; cf := cf a; opts := opts a; mux := mux a;
     hProm := hProm a; hProf := hProf a;
     cc := cc a; readinessFailed := v |}.

Definition set_mux (m : ServeMux) (a : app) : app :=
  {| registry := registry a; cf := cf a; opts := opts a; mux := m;
     hProm := hProm a; hProf := hProf a;
     cc := cc a; readinessFailed := readinessFailed a |}.

(** [atomic.AddInt64(&a.readinessFailed, delta)] *)
Definition atomic_AddInt64 (delta : Z) : Go event app Z :=
  fun a =>
    let v := Int64.add (readinessFailed a) delta in
    (Returned v, set_readinessFailed v a, []).

(** [atomic.StoreInt64(&a.readinessFailed, v)] *)
Definition atomic_StoreInt64 (v : Z) : Go event app unit :=
  fun a => (Returned tt, set_readinessFailed v a, []).

(** [atomic.LoadInt64(&a.readinessFailed)] *)
Definition atomic_LoadInt64 : Go event app Z :=
  fun a => (Returned (readinessFailed a), a, []).

(** [<-a.cc]; a receive from a nil channel parks for ever. *)
Definition recv_cc : Go event app unit :=
  fun a =>
    match cc a with
    | Some ch =>
        match chan_recv ch with
        | Some ch' => (Returned tt, set_cc (Some ch') a, [EvAcquire])
        | None => (Blocked, a, [])
        end
    | None => (Blocked, a, [])
    end.

(** [a.cc <- struct{}{}] *)
Definition send_cc : Go event app unit :=
  fun a =>
    match cc a with
    | Some ch =>
        match chan_send ch with
        | Some ch' => (Returned tt, set_cc (Some ch') a, [EvRelease])
        | None => (Blocked, a, [])
        end
    | None => (Blocked, a, [])
    end.

(** Modelled from the spec: [respondInternal(rw, body, status)] writes a
    plain-text response with the given status. *)
Definition respondInternal {S} (body : string) (status : Z) : Go event S unit :=
  emit (EvRespond status body).

(** The callback given to [a.Check] in the readiness branch; the captured
    variables are [sb] and [failed]. *)
Definition report (name : string) (err : error) (st : string * bool)
    : string * bool :=
  let '(sb, failed) := st in
  let sb := if (0 <? String.length sb)%nat then sb +:+ newline else sb in
  let sb := sb +:+ name in
  match err with
  | None => (sb +:+ ": OK", failed)
  | Some msg => (sb +:+ ": " +:+ msg, true)
  end.

(** The closure that [HandleFunc] registers for [pattern] and [fn]: it
    reads [a.cf] and [a.Inject] when a request comes in.  The route tag of
    [otelhttp.WithRouteTag] does not change control flow. *)
Definition route_handler {S} (a : app) (pattern : string) (fn : HandlerFunc)
    (req : Request) : Go event S unit :=
  let c := cf a req in
  emit (EvFactory c) ;;;
  emit (EvDefer c) ;;;
  with_defer (Perform c)
    (Inject (registry a) c ;;;
     emit (EvInvoke pattern c) ;;;
     call (fn c)).

Definition HandleFunc (pattern : string) (fn : HandlerFunc) : Go event app unit :=
  a <- get ;;
  match ServeMux_Handle (mux a) pattern fn with
  | Returned m => put (set_mux m a)
  | Panicked => panic
  | Blocked => park
  end.

(** [a.hMain] is [otelhttp.NewHandler(a.mux, "http")]: it holds the
    pointer [a.mux], so it serves through the routes registered so far;
    the tracing wrapper does not change control flow. *)
Definition hMain {S} (a : app) (req : Request) : Go event S unit :=
  match ServeMux_find (map fst (mux a)) req with
  | Some pattern =>
      match route_of (mux a) pattern with
      | Some fn => route_handler a pattern fn req
      | None => emit (EvNotFound (URL_Path req))
      end
  | None => emit (EvNotFound (URL_Path req))
  end.

Definition ServeHTTP (req : Request) : Go event app unit :=
  a <- get ;;
  if String.eqb (URL_Path req) (readinessPath (opts a)) then
    st <- Check (checks (registry a)) (req_ctx req) report ("", false) ;;
    let '(sb, failed) := st in
    let sb := if (String.length sb =? 0)%nat then "OK" else sb in
    status <- (if failed
               then atomic_AddInt64 1 ;;; ret StatusInternalServerError
               else atomic_StoreInt64 0 ;;; ret StatusOK) ;;
    respondInternal sb status
  else if String.eqb (URL_Path req) (livenessPath (opts a)) then
    over <- (if 0 <? readinessCascade (opts a)
             then n <- atomic_LoadInt64 ;; ret (readinessCascade (opts a) <? n)
             else ret false) ;;
    if over
    then respondInternal "CASCADED" StatusInternalServerError
    else respondInternal "OK" StatusOK
  else if String.eqb (URL_Path req) (metricsPath (opts a)) then
    emit (EvProm (URL_Path req)) ;;; call (hProm a req)
  else if HasPrefix (URL_Path req) "/debug/" then
    emit (EvProf (URL_Path req)) ;;; call (hProf a req)
  else
    match cc a with
    | Some _ => recv_cc ;;; with_defer send_cc (hMain a req)
    | None => hMain a req
    end.

(** Requests served one after the other by the same [app]. *)
Definition serve_all (reqs : list Request) (a : app) : app :=
  fold_left (fun a req => snd (fst (ServeHTTP req a))) reqs a.

(** *** Construction *)

(** Constants and collaborators declared outside [app.go]. *)
Variables DefaultReadinessPath DefaultLivenessPath DefaultMetricsPath : string.
Variable promhttp_Handler : ExternalHandler.
Variable pprof_mux : ExternalHandler.

(** [for i := 0; i < n; i++ { ch <- struct{}{} }]: the body runs once for
    each of the [n] values of [i]; a send that finds the buffer full parks
    the caller. *)
Fixpoint fill (n : nat) (ch : chan) : option chan :=
  match n with
  | O => Some ch
  | S n' =>
      match chan_send ch with
      | Some ch' => fill n' ch'
      | None => None
      end
  end.

Definition default_options : options :=
  {| concurrency := 128;
     readinessCascade := 5;
     readinessPath := DefaultReadinessPath;
     livenessPath := DefaultLivenessPath;
     metricsPath := DefaultMetricsPath |}.

(** [for _, opt := range opts { opt(&a.opts) }] *)
Definition apply_options (options_ : list Option_) : options :=
  fold_left (fun o opt => opt o) options_ default_options.

Definition New (cf_ : ContextFactory) (options_ : list Option_) : result app :=
  let o := apply_options options_ in
  let a := {| registry := NewRegistry; cf := cf_; opts := o; mux := [];
              hProm := promhttp_Handler; hProf := pprof_mux;
              cc := None; readinessFailed := 0 |} in
  if 0 <? concurrency o then
    match fill (Z.to_nat (concurrency o)) (make_chan (concurrency o)) with
    | Some ch => Returned (set_cc (Some ch) a)
    | None => Blocked
    end
  else Returned a.

(** The lifecycle events of a request served for [pattern] with the
    context [c], up to the call of the handler. *)
Definition lifecycle_prefix (pattern : string) (c : T) : list event :=
  [EvFactory c; EvDefer c; EvInject c; EvInvoke pattern c].

(** The outcome and the log of [a.hMain] for a request. *)
Definition main_result (a : app) (req : Request) : result unit :=
  fst (fst (hMain a req tt)).

Definition main_log (a : app) (req : Request) : list event :=
  snd (hMain a req tt).

(** The events that are actions on the gate, and those that are runs of
    a registered check. *)
Definition gate_event (e : event) : bool :=
  match e with
  | EvAcquire | EvRelease => true
  | _ => false
  end.

Definition check_event (e : event) : bool :=
  match e with
  | EvCheck _ _ => true
  | _ => false
  end.

(** *** Requests served concurrently

    One goroutine per request.  The accesses of a request to the shared
    fields of [app] are single atomic operations ([atomic.AddInt64],
    [atomic.StoreInt64], [atomic.LoadInt64], a channel receive, a channel
    send), so a request on the application route advances in three steps:
    the receive from [a.cc], the call of [a.hMain], the deferred send. *)

(** The fifth destination of [ServeHTTP]: none of the four tests matches. *)
Definition app_route (a : app) (req : Request) : bool :=
  negb (String.eqb (URL_Path req) (readinessPath (opts a)))
  && negb (String.eqb (URL_Path req) (livenessPath (opts a)))
  && negb (String.eqb (URL_Path req) (metricsPath (opts a)))
  && negb (HasPrefix (URL_Path req) "/debug/").

Inductive task : Type :=
| TEntry (req : Request)                 (* at the top of [ServeHTTP] *)
| TServing (req : Request) (held : bool) (* about to call [a.hMain] *)
| TParked (held : bool)                  (* never came back from [a.hMain] *)
| TExiting (r : result unit) (held : bool) (* [a.hMain] is over *)
| TDone (r : result unit).               (* [ServeHTTP] is over *)

Definition task_step (a : app) (t : task) : option (app * task * list event) :=
  match t with
  | TEntry req =>
      if app_route a req then
        match cc a with
        | Some _ =>
            match recv_cc a with
            | (Returned _, a', log) => Some (a', TServing req true, log)
            | _ => None
            end
        | None => Some (a, TServing req false, [])
        end
      else
        let '(r, a', log) := ServeHTTP req a in Some (a', TDone r, log)
  | TServing req held =>
      match hMain a req a with
      | (Blocked, a', log) => Some (a', TParked held, log)
      | (r, a', log) => Some (a', TExiting r held, log)
      end
  | TParked _ => None
  | TExiting r true =>
      match send_cc a with
      | (Returned _, a', log) => Some (a', TDone r, log)
      | _ => None
      end
  | TExiting r false => Some (a, TDone r, [])
  | TDone _ => None
  end.

Record system : Type := mkSystem {
  sys_app : app;
  sys_tasks : list task;
  sys_log : list (nat * event);
}.

(** What the scheduler does next: a request arrives, or the goroutine
    [i] runs one step (nothing happens when it is parked or over). *)
Inductive action : Type :=
| Arrive (req : Request)
| Run (i : nat).

Definition sys_step (s : system) (act : action) : system :=
  match act with
  | Arrive req =>
      {| sys_app := sys_app s;
         sys_tasks := sys_tasks s ++ [TEntry req];
         sys_log := sys_log s |}
  | Run i =>
      match sys_tasks s !! i with
      | Some t =>
          match task_step (sys_app s) t with
          | Some (a', t', log) =>
              {| sys_app := a';
                 sys_tasks := <[i := t']> (sys_tasks s);
                 sys_log := sys_log s ++ map (pair i) log |}
          | None => s
          end
      | None => s
      end
  end.

Definition sys_run (s : system) (schedule : list action) : system :=
  fold_left sys_step schedule s.

Definition sys_init (a : app) : system :=
  {| sys_app := a; sys_tasks := []; sys_log := [] |}.

(** Permits of the gate: those in the buffer of [a.cc] and those taken by
    requests that have received and not yet sent back. *)
Definition permits_available (a : app) : Z :=
  match cc a with
  | Some ch => chan_len ch
  | None => 0
  end.

Definition holds_permit (t : task) : bool :=
  match t with
  | TServing _ held | TParked held | TExiting _ held => held
  | TEntry _ | TDone _ => false
  end.

Fixpoint permits_held (ts : list task) : Z :=
  match ts with
  | [] => 0
  | t :: ts' => (if holds_permit t then 1 else 0) + permits_held ts'
  end.

(** The actions on the gate that the goroutine [i] has logged so far. *)
Definition gate_log (s : system) (i : nat) : list event :=
  filter (fun e => gate_event e = true)
    (map snd (filter (fun p => fst p = i) (sys_log s))).

(** What a goroutine in state [t] must have logged on the gate. *)
Definition expected_gate_log (t : task) (log : list event) : Prop :=
  match t with
  | TEntry _ => log = []
  | TServing _ held | TParked held | TExiting _ held =>
      log = if held then [EvAcquire] else []
  | TDone _ => log = [] \/ log = [EvAcquire; EvRelease]
  end.

(** The gate of [n] permits: every permit is in the buffer of [a.cc] or
    taken by a request. *)
Definition gate_inv (n : Z) (s : system) : Prop :=
  exists ch,
    cc (sys_app s) = Some ch
    /\ chan_cap ch = n
    /\ 0 <= chan_len ch
    /\ chan_len ch + permits_held (sys_tasks s) = n.

(** No gate: no request ever holds a permit. *)
Definition ungated (s : system) : Prop :=
  cc (sys_app s) = None /\ permits_held (sys_tasks s) = 0.

(** Every goroutine has logged the actions on the gate that its state
    tells. *)
Definition gate_log_inv (s : system) : Prop :=
  forall i,
    match sys_tasks s !! i with
    | Some t => expected_gate_log t (gate_log s i)
    | None => gate_log s i = []
    end.


(** The goroutine of one request run alone until it is over or parked. *)
Fixpoint run_alone (fuel : nat) (a : app) (t : task) (log : list event)
    : app * task * list event :=
  match fuel with
  | O => (a, t, log)
  | S fuel' =>
      match task_step a t with
      | Some (a', t', log') => run_alone fuel' a' t' (log ++ log')
      | None => (a, t, log)
      end
  end.
(** The patterns that [New] registers on the [pprof] mux behind
    [a.hProf]. *)
Definition pprof_patterns : list string :=
  [ "/debug/pprof/"; "/debug/pprof/cmdline"; "/debug/pprof/profile";
    "/debug/pprof/symbol"; "/debug/pprof/trace" ].

(** A goroutine that is inside [a.hMain]. *)
Definition in_handler (t : task) : bool :=
  match t with
  | TServing _ _ | TParked _ => true
  | TEntry _ | TExiting _ _ | TDone _ => false
  end.

Fixpoint handlers_running (ts : list task) : Z :=
  match ts with
  | [] => 0
  | t :: ts' => (if in_handler t then 1 else 0) + handlers_running ts'
  end.

(** With a gate, every goroutine inside [a.hMain] has taken a permit. *)
Definition handlers_hold (ts : list task) : Prop :=
  Forall (fun t => in_handler t = true -> holds_permit t = true) ts.


(** *** The specification's reading of the dispatcher

    These definitions follow the words of the specification; the theorems
    compare them with [ServeHTTP]. *)

Inductive destination : Type :=
| Readiness | Liveness | Metrics | Diagnostic | Application.

(** The tests of the routing priority, in their order, each with the
    destination it selects. *)
Definition routing_tests (o : options) : list ((string -> bool) * destination) :=
  [ (fun path => String.eqb path (readinessPath o), Readiness);
    (fun path => String.eqb path (livenessPath o), Liveness);
    (fun path => String.eqb path (metricsPath o), Metrics);
    (fun path => HasPrefix path "/debug/", Diagnostic) ].

(** First match wins; the application route table is the destination when
    no test matches. *)
Fixpoint first_match (tests : list ((string -> bool) * destination))
    (path : string) : destination :=
  match tests with
  | [] => Application
  | (test, d) :: tests' => if test path then d else first_match tests' path
  end.

Definition resolve (o : options) (path : string) : destination :=
  first_match (routing_tests o) path.

(** What each registered check reports for a request. *)
Definition check_results (r : Registry) (ctx : nat) : list (string * error) :=
  map (fun c => (fst c, snd c ctx)) (checks r).

Definition report_line (res : string * error) : string :=
  match snd res with
  | None => fst res +:+ ": OK"
  | Some msg => fst res +:+ ": " +:+ msg
  end.

(** The lines joined by a line feed, none after the last one. *)
Fixpoint join_lines (lines : list string) : string :=
  match lines with
  | [] => ""
  | [l] => l
  | l :: lines' => l +:+ newline +:+ join_lines lines'
  end.

Definition readiness_body (results : list (string * error)) : string :=
  match results with
  | [] => "OK"
  | _ => join_lines (map report_line results)
  end.

Definition any_failed (results : list (string * error)) : bool :=
  existsb (fun res => match snd res with Some _ => true | None => false end)
    results.

(** The cascade rule of the liveness evaluation. *)
Definition cascaded (o : options) (counter : Z) : bool :=
  (0 <? readinessCascade o) && (readinessCascade o <? counter).

(** The handling of a request by its destination. *)
Definition serve_destination (d : destination) (req : Request)
    : Go event app unit :=
  fun a =>
    match d with
    | Readiness =>
        let results := check_results (registry a) (req_ctx req) in
        let log := map (fun res => EvCheck (fst res) (snd res)) results in
        if any_failed results
        then (Returned tt,
              set_readinessFailed (Int64.add (readinessFailed a) 1) a,
              log ++ [EvRespond 500 (readiness_body results)])
        else (Returned tt,
              set_readinessFailed 0 a,
              log ++ [EvRespond 200 (readiness_body results)])
    | Liveness =>
        if cascaded (opts a) (readinessFailed a)
        then (Returned tt, a, [EvRespond 500 "CASCADED"])
        else (Returned tt, a, [EvRespond 200 "OK"])
    | Metrics => (hProm a req, a, [EvProm (URL_Path req)])
    | Diagnostic => (hProf a req, a, [EvProf (URL_Path req)])
    | Application =>
        match cc a with
        | Some _ => (recv_cc ;;; with_defer send_cc (hMain a req)) a
        | None => hMain a req a
        end
    end.

End Summer.

Arguments event : clear implicits.
Arguments app : clear implicits.
Arguments task : clear implicits.
Arguments system : clear implicits.
Arguments HandlerFunc : clear implicits.
Arguments ServeMux : clear implicits.

(** ** Concrete configurations *)

Module Sample.
(** A route table that selects the pattern equal to the path, and accepts
    a pattern that is not registered yet. *)
Definition find_exact (patterns : list string) (req : Request) : option string :=
  if existsb (String.eqb (URL_Path req)) patterns
  then Some (URL_Path req)
  else None.

Definition accepts_fresh (patterns : list string) (pattern : string) : bool :=
  negb (existsb (String.eqb pattern) patterns).

Definition served : Request -> result unit := fun _ => Returned tt.

(** Readiness and liveness configured to the same path, one check that
    fails. *)
Definition shared_path_app : app unit :=
  {| registry := {| checks := [("db", fun _ => Some "down")] |};
     cf := fun _ => tt;
     opts := {| concurrency := 1; readinessCascade := 5;
                readinessPath := "/health"; livenessPath := "/health";
                metricsPath := "/metrics" |};
     mux := [];
     hProm := served; hProf := served;
     cc := Some {| chan_cap := 1; chan_len := 1 |};
     readinessFailed := 0 |}.

Definition health : Request := {| URL_Path := "/health"; req_ctx := 0 |}.

(** Two permits, a cascade threshold of 2, a check that passes and a check
    that fails for the requests whose context is odd; the [Context] of a
    request is the number of its context.  The route ["/boom"] panics. *)
Definition demo_app : app nat :=
  {| registry :=
       {| checks := [("cache", fun _ => None);
                     ("db", fun ctx => if Nat.even ctx then None
                                       else Some "db: timeout")] |};
     cf := req_ctx;
     opts := {| concurrency := 2; readinessCascade := 2;
                readinessPath := "/readiness"; livenessPath := "/liveness";
                metricsPath := "/metrics" |};
     mux := [("/hello", fun _ => Returned tt); ("/boom", fun _ => Panicked)];
     hProm := served; hProf := served;
     cc := Some {| chan_cap := 2; chan_len := 2 |};
     readinessFailed := 0 |}.

Definition ready_ok : Request := {| URL_Path := "/readiness"; req_ctx := 2 |}.
Definition ready_bad : Request := {| URL_Path := "/readiness"; req_ctx := 1 |}.
Definition alive : Request := {| URL_Path := "/liveness"; req_ctx := 3 |}.
Definition metrics : Request := {| URL_Path := "/metrics"; req_ctx := 4 |}.
Definition hello : Request := {| URL_Path := "/hello"; req_ctx := 5 |}.
Definition boom : Request := {| URL_Path := "/boom"; req_ctx := 6 |}.

(** An [Option] that sets the concurrency limit. *)
Definition with_concurrency (n : Z) : @Option_ :=
  fun o => {| concurrency := n;
              readinessCascade := readinessCascade o;
              readinessPath := readinessPath o;
              livenessPath := livenessPath o;
              metricsPath := metricsPath o |}.

(** [New] with the default paths of the samples. *)
Definition new_app (options_ : list Option_) : result (app nat) :=
  New "/readiness" "/liveness" "/metrics" served served req_ctx options_.

(** The same application with the cascade turned off by a negative
    threshold, with a single permit, and with a route whose handler parks
    for ever. *)
Definition no_cascade_app : app nat :=
  {| registry := registry demo_app; cf := cf demo_app;
     opts := {| concurrency := 2; readinessCascade := -1;
                readinessPath := "/readiness"; livenessPath := "/liveness";
                metricsPath := "/metrics" |};
     mux := mux demo_app; hProm := served; hProf := served;
     cc := cc demo_app; readinessFailed := 0 |}.

Definition single_permit_app : app nat :=
  set_cc (Some {| chan_cap := 1; chan_len := 1 |}) demo_app.

Definition hanging_app : app nat :=
  set_mux [("/hang", fun _ => Blocked)] demo_app.

Definition nowhere : Request := {| URL_Path := "/nowhere"; req_ctx := 7 |}.
Definition hang : Request := {| URL_Path := "/hang"; req_ctx := 8 |}.
Definition fresh : Request := {| URL_Path := "/fresh"; req_ctx := 9 |}.
Definition heap : Request := {| URL_Path := "/debug/pprof/heap"; req_ctx := 10 |}.

End Sample.


(** ** Properties *)

(** *** Strings and [int64] *)

Lemma append_cons c s t : String c s +:+ t = String c (s +:+ t).
Proof. reflexivity. Qed.

Lemma append_nil_l t : "" +:+ t = t.
Proof. reflexivity. Qed.

Lemma append_assoc s t u : (s +:+ t) +:+ u = s +:+ (t +:+ u).
Proof.
  induction s as [|c s IH]; [reflexivity|].
  rewrite !append_cons, IH. reflexivity.
Qed.

Lemma length_append s t :
  String.length (s +:+ t) = (String.length s + String.length t)%nat.
Proof.
  induction s as [|c s IH]; [reflexivity|].
  rewrite append_cons. simpl. rewrite IH. reflexivity.
Qed.

Lemma bind_get {E S A} (k : S -> Go E S A) (s : S) : bind get k s = k s s.
Proof. unfold bind, get. destruct (k s s) as [[r s'] t]. reflexivity. Qed.

Lemma Int64_add_no_overflow x :
  Int64.min_int <= x < Int64.max_int -> Int64.add x 1 = x + 1.
Proof.
  unfold Int64.add, Int64.wrap, Int64.min_int, Int64.max_int, Int64.modulus.
  intros H. rewrite Z.mod_small; lia.
Qed.

Lemma Int64_add_overflow : Int64.add Int64.max_int 1 = Int64.min_int.
Proof. reflexivity. Qed.

Lemma Int64_add_in_range x y : Int64.in_range (Int64.add x y).
Proof.
  unfold Int64.in_range, Int64.add, Int64.wrap, Int64.min_int, Int64.max_int,
    Int64.modulus.
  pose proof (Z.mod_pos_bound (x + y - - 2 ^ 63) (2 ^ 64) ltac:(lia)). lia.
Qed.

Lemma report_line_length res : (2 <= String.length (report_line res))%nat.
Proof.
  destruct res as [name [msg|]]; unfold report_line; simpl;
    rewrite !length_append; simpl; lia.
Qed.

Lemma readiness_body_length results :
  (0 < String.length (readiness_body results))%nat.
Proof.
  destruct results as [|r1 rs]; [simpl; lia|].
  unfold readiness_body. cbn [map join_lines].
  pose proof (report_line_length r1).
  destruct (map report_line rs); rewrite ?length_append; lia.
Qed.

Section Properties.
Context {T : Type}.
Variable find : list string -> Request -> option string.

(** *** The readiness report *)

Lemma report_spec name err sb failed :
  report name err (sb, failed) =
    ((if (0 <? String.length sb)%nat then sb +:+ newline else sb)
       +:+ report_line (name, err),
     failed || match err with Some _ => true | None => false end).
Proof.
  unfold report, report_line. simpl.
  destruct err; rewrite ?append_assoc, ?orb_true_r, ?orb_false_r; reflexivity.
Qed.

(** The builder and the flag after [Check] has called [report] for every
    check, starting from any contents [sb] and any flag [failed]. *)
Lemma Check_report {S} cs ctx sb failed (s : S) :
  let results := check_results {| checks := cs |} ctx in
  @Check T S _ cs ctx report (sb, failed) s =
    (Returned
       (match results with
        | [] => sb
        | _ => (if (0 <? String.length sb)%nat then sb +:+ newline else sb)
                 +:+ join_lines (map report_line results)
        end,
        failed || any_failed results),
     s,
     map (fun res => EvCheck (fst res) (snd res)) results).
Proof.
  revert sb failed. induction cs as [|[name chk] cs IH]; intros sb failed.
  - simpl. unfold ret. rewrite orb_false_r. reflexivity.
  - cbn [Check]. unfold bind at 1, emit at 1. rewrite report_spec, IH. clear IH.
    unfold check_results. cbn [checks map fst snd any_failed existsb].
    fold (any_failed (map (fun c : string * (nat -> error) => (c.1, c.2 ctx)) cs)).
    rewrite orb_assoc. cbn [Datatypes.app]. do 4 f_equal.
    destruct cs as [|c2 cs]; [reflexivity|].
    cbn [map join_lines].
    set (l1 := report_line (name, chk ctx)).
    assert (H : (0 <? String.length
                   ((if (0 <? String.length sb)%nat then sb +:+ newline else sb)
                      +:+ l1))%nat = true).
    { apply Nat.ltb_lt. rewrite length_append.
      pose proof (report_line_length (name, chk ctx)) as Hl. fold l1 in Hl. lia. }
    rewrite H. rewrite !append_assoc. reflexivity.
Qed.

(** *** The five branches of [ServeHTTP] *)

Lemma ServeHTTP_readiness (a : app T) req :
  URL_Path req = readinessPath (opts a) ->
  ServeHTTP find req a = serve_destination find Readiness req a.
Proof.
  intros Hp. unfold ServeHTTP. rewrite bind_get, Hp, String.eqb_refl.
  unfold bind at 1. rewrite Check_report. cbn [String.length Nat.ltb Nat.leb].
  unfold serve_destination.
  replace (check_results {| checks := checks (registry a) |} (req_ctx req))
    with (check_results (registry a) (req_ctx req)) by reflexivity.
  set (results := check_results (registry a) (req_ctx req)).
  rewrite orb_false_l.
  assert (Hbody :
    (if (String.length
           match results with
           | [] => ""
           | _ :: _ => "" +:+ join_lines (map report_line results)
           end =? 0)%nat
     then "OK"
     else match results with
          | [] => ""
          | _ :: _ => "" +:+ join_lines (map report_line results)
          end) = readiness_body results).
  { pose proof (readiness_body_length results) as Hlen.
    destruct results as [|r1 rs]; [reflexivity|].
    rewrite append_nil_l. unfold readiness_body in *.
    destruct (Nat.eqb_spec
                (String.length (join_lines (map report_line (r1 :: rs)))) 0);
      [lia | reflexivity]. }
  rewrite Hbody. destruct (any_failed results); reflexivity.
Qed.

Lemma ServeHTTP_liveness (a : app T) req :
  URL_Path req <> readinessPath (opts a) ->
  URL_Path req = livenessPath (opts a) ->
  ServeHTTP find req a = serve_destination find Liveness req a.
Proof.
  intros Hr Hl. apply String.eqb_neq in Hr.
  unfold ServeHTTP. rewrite bind_get, Hr, Hl, String.eqb_refl.
  unfold serve_destination, cascaded.
  destruct (0 <? readinessCascade (opts a)); [|reflexivity].
  cbn [andb]. unfold bind, atomic_LoadInt64, ret.
  destruct (readinessCascade (opts a) <? readinessFailed a); reflexivity.
Qed.

Lemma ServeHTTP_metrics (a : app T) req :
  URL_Path req <> readinessPath (opts a) ->
  URL_Path req <> livenessPath (opts a) ->
  URL_Path req = metricsPath (opts a) ->
  ServeHTTP find req a = serve_destination find Metrics req a.
Proof.
  intros Hr Hl Hm. apply String.eqb_neq in Hr, Hl. apply String.eqb_eq in Hm.
  unfold ServeHTTP, bind, get. cbn beta iota.
  rewrite Hr, Hl, Hm. unfold serve_destination, emit, call.
  destruct (hProm a req); reflexivity.
Qed.

Lemma ServeHTTP_diagnostic (a : app T) req :
  URL_Path req <> readinessPath (opts a) ->
  URL_Path req <> livenessPath (opts a) ->
  URL_Path req <> metricsPath (opts a) ->
  HasPrefix (URL_Path req) "/debug/" = true ->
  ServeHTTP find req a = serve_destination find Diagnostic req a.
Proof.
  intros Hr Hl Hm Hd. apply String.eqb_neq in Hr, Hl, Hm.
  unfold ServeHTTP, bind, get. cbn beta iota.
  rewrite Hr, Hl, Hm, Hd. unfold serve_destination, emit, call.
  destruct (hProf a req); reflexivity.
Qed.

Lemma ServeHTTP_application (a : app T) req :
  URL_Path req <> readinessPath (opts a) ->
  URL_Path req <> livenessPath (opts a) ->
  URL_Path req <> metricsPath (opts a) ->
  HasPrefix (URL_Path req) "/debug/" = false ->
  ServeHTTP find req a = serve_destination find Application req a.
Proof.
  intros Hr Hl Hm Hd. apply String.eqb_neq in Hr, Hl, Hm.
  unfold ServeHTTP. rewrite bind_get, Hr, Hl, Hm, Hd.
  unfold serve_destination. destruct (cc a); reflexivity.
Qed.
(** *** Routing priority *)

Lemma resolve_cases (o : options) (path : string) :
  (path = readinessPath o /\ resolve o path = Readiness)
  \/ (path <> readinessPath o /\ path = livenessPath o
      /\ resolve o path = Liveness)
  \/ (path <> readinessPath o /\ path <> livenessPath o
      /\ path = metricsPath o /\ resolve o path = Metrics)
  \/ (path <> readinessPath o /\ path <> livenessPath o
      /\ path <> metricsPath o /\ HasPrefix path "/debug/" = true
      /\ resolve o path = Diagnostic)
  \/ (path <> readinessPath o /\ path <> livenessPath o
      /\ path <> metricsPath o /\ HasPrefix path "/debug/" = false
      /\ resolve o path = Application).
Proof.
  unfold resolve, routing_tests, first_match.
  destruct (String.eqb_spec path (readinessPath o)); [tauto|].
  destruct (String.eqb_spec path (livenessPath o)); [tauto|].
  destruct (String.eqb_spec path (metricsPath o)); [tauto|].
  destruct (HasPrefix path "/debug/"); tauto.
Qed.

Lemma ServeHTTP_resolve (a : app T) (req : Request) :
  ServeHTTP find req a
  = serve_destination find (resolve (opts a) (URL_Path req)) req a.
Proof.
  destruct (resolve_cases (opts a) (URL_Path req))
    as [[? ->]|[(? & ? & ->)|[(? & ? & ? & ->)|[(? & ? & ? & ? & ->)|(? & ? & ? & ? & ->)]]]].
  - by apply ServeHTTP_readiness.
  - by apply ServeHTTP_liveness.
  - by apply ServeHTTP_metrics.
  - by apply ServeHTTP_diagnostic.
  - by apply ServeHTTP_application.
Qed.

(** C1: [ServeHTTP] handles every request by exactly one destination, the
    one selected by testing in this order, first match wins: equality with
    the readiness path, equality with the liveness path, equality with the
    metrics path, the prefix ["/debug/"], and the application route table
    otherwise.  When the readiness and liveness paths are the same string,
    a request to it is handled as a readiness request. *)
Theorem ServeHTTP_routing_priority (a : app T) (req : Request) :
  ServeHTTP find req a
  = serve_destination find (resolve (opts a) (URL_Path req)) req a
  /\ (resolve (opts a) (URL_Path req) = Readiness
      <-> URL_Path req = readinessPath (opts a))
  /\ (resolve (opts a) (URL_Path req) = Liveness
      <-> URL_Path req <> readinessPath (opts a)
          /\ URL_Path req = livenessPath (opts a))
  /\ (resolve (opts a) (URL_Path req) = Metrics
      <-> URL_Path req <> readinessPath (opts a)
          /\ URL_Path req <> livenessPath (opts a)
          /\ URL_Path req = metricsPath (opts a))
  /\ (resolve (opts a) (URL_Path req) = Diagnostic
      <-> URL_Path req <> readinessPath (opts a)
          /\ URL_Path req <> livenessPath (opts a)
          /\ URL_Path req <> metricsPath (opts a)
          /\ HasPrefix (URL_Path req) "/debug/" = true)
  /\ (resolve (opts a) (URL_Path req) = Application
      <-> URL_Path req <> readinessPath (opts a)
          /\ URL_Path req <> livenessPath (opts a)
          /\ URL_Path req <> metricsPath (opts a)
          /\ HasPrefix (URL_Path req) "/debug/" = false)
  /\ (readinessPath (opts a) = livenessPath (opts a) ->
      URL_Path req = livenessPath (opts a) ->
      ServeHTTP find req a = serve_destination find Readiness req a).
Proof.
  split; [apply ServeHTTP_resolve|].
  pose proof (resolve_cases (opts a) (URL_Path req)) as Hc.
  repeat split; try (intros; apply ServeHTTP_readiness; congruence);
    intros; destruct_and?;
    destruct Hc as [[? Hd]|[(? & ? & Hd)|[(? & ? & ? & Hd)
                   |[(? & ? & ? & ? & Hd)|(? & ? & ? & ? & Hd)]]]];
    congruence.
Qed.
(** *** Readiness evaluation *)

Lemma any_failed_true (results : list (string * error)) :
  any_failed results = true <-> exists name msg, In (name, Some msg) results.
Proof.
  unfold any_failed. rewrite existsb_exists. split.
  - intros [[name [msg|]] [Hin Hf]]; [eauto | discriminate].
  - intros (name & msg & Hin). exists (name, Some msg). auto.
Qed.

Lemma any_failed_false (results : list (string * error)) :
  any_failed results = false <-> Forall (fun res => snd res = None) results.
Proof.
  unfold any_failed. rewrite <- not_true_iff_false, existsb_exists, Forall_forall.
  split.
  - intros Hn [name [msg|]] Hin; [|reflexivity].
    exfalso. apply Hn. exists (name, Some msg).
    split; [by apply list_elem_of_In | reflexivity].
  - intros Hall [res [Hin Hf]]. apply list_elem_of_In in Hin.
    rewrite (Hall res Hin) in Hf. discriminate.
Qed.

Lemma join_lines_concat (lines : list string) :
  join_lines lines = String.concat newline lines.
Proof.
  induction lines as [|l [|l' lines] IH]; try reflexivity.
  change (l +:+ newline +:+ join_lines (l' :: lines)
          = l +:+ newline +:+ String.concat newline (l' :: lines)).
  rewrite IH. reflexivity.
Qed.

(** C2: a request to the readiness path makes every registered check
    report, in turn, and then answers.  If some check reported an error
    the status is 500 and the counter is incremented by 1 (an [int64]
    addition; it is the integer successor below the largest [int64]); if
    every check reported [nil] the status is 200 and 0 is stored in the
    counter whatever it held.  The status is 500 exactly when some check
    failed.  The counter is read back from the application after the
    request; the gate and the options are the ones before it. *)
Theorem ServeHTTP_readiness_counter (a : app T) (req : Request) :
  URL_Path req = readinessPath (opts a) ->
  exists status body counter,
    ServeHTTP find req a
    = (Returned tt, set_readinessFailed counter a,
       map (fun res => EvCheck (fst res) (snd res))
         (check_results (registry a) (req_ctx req))
       ++ [EvRespond status body])
    /\ readinessFailed (snd (fst (ServeHTTP find req a))) = counter
    /\ cc (snd (fst (ServeHTTP find req a))) = cc a
    /\ opts (snd (fst (ServeHTTP find req a))) = opts a
    /\ ((exists name msg,
           In (name, Some msg) (check_results (registry a) (req_ctx req))) ->
        status = 500
        /\ counter = Int64.add (readinessFailed a) 1
        /\ (Int64.min_int <= readinessFailed a < Int64.max_int ->
            counter = readinessFailed a + 1))
    /\ (Forall (fun res => snd res = None)
          (check_results (registry a) (req_ctx req)) ->
        status = 200 /\ counter = 0)
    /\ (status = 500 <->
        exists name msg,
          In (name, Some msg) (check_results (registry a) (req_ctx req))).
Proof.
  intros Hp. rewrite (ServeHTTP_readiness a req Hp). unfold serve_destination.
  set (results := check_results (registry a) (req_ctx req)).
  destruct (any_failed results) eqn:Hf.
  - exists 500, (readiness_body results), (Int64.add (readinessFailed a) 1).
    pose proof Hf as Hex. apply any_failed_true in Hex.
    split; [reflexivity|]. do 3 (split; [reflexivity|]). split; [|split].
    + intros _. auto using Int64_add_no_overflow.
    + intros Hall. apply any_failed_false in Hall. congruence.
    + split; auto.
  - exists 200, (readiness_body results), 0.
    assert (Hno : ~ exists name msg, In (name, Some msg) results).
    { intros Hex. apply any_failed_true in Hex. congruence. }
    split; [reflexivity|]. do 3 (split; [reflexivity|]). split; [|split].
    + intros Hex. contradiction.
    + auto.
    + split; [discriminate | intros Hex; contradiction].
Qed.

(** C6: the body of a readiness response is the line ["<name>: OK"] or
    ["<name>: <error>"] of every check, in the order the checks ran,
    joined by line feeds with none after the last line, and it is ["OK"]
    when no check is registered.  With a check that reports [nil] and a
    check that reports the error ["db: timeout"], the body is the two
    lines ["<nameA>: OK"] and ["<nameB>: db: timeout"] and the status is
    500. *)
Theorem ServeHTTP_readiness_body (a : app T) (req : Request) :
  URL_Path req = readinessPath (opts a) ->
  (exists status a',
     ServeHTTP find req a
     = (Returned tt, a',
        map (fun res => EvCheck (fst res) (snd res))
          (check_results (registry a) (req_ctx req))
        ++ [EvRespond status
              (match check_results (registry a) (req_ctx req) with
               | [] => "OK"
               | results => String.concat newline (map report_line results)
               end)]))
  /\ (forall res, report_line res
        = match snd res with
          | None => fst res +:+ ": OK"
          | Some msg => fst res +:+ ": " +:+ msg
          end)
  /\ (forall nameA nameB chkA chkB,
        checks (registry a) = [(nameA, chkA); (nameB, chkB)] ->
        chkA (req_ctx req) = None ->
        chkB (req_ctx req) = Some "db: timeout" ->
        ServeHTTP find req a
        = (Returned tt,
           set_readinessFailed (Int64.add (readinessFailed a) 1) a,
           [EvCheck nameA None; EvCheck nameB (Some "db: timeout");
            EvRespond 500
              ((nameA +:+ ": OK") +:+ newline +:+ (nameB +:+ ": db: timeout"))])).
Proof.
  intros Hp. rewrite (ServeHTTP_readiness a req Hp). unfold serve_destination.
  split; [|split].
  - set (results := check_results (registry a) (req_ctx req)).
    assert (Hb : readiness_body results
                 = match results with
                   | [] => "OK"
                   | r :: rs => String.concat newline (map report_line (r :: rs))
                   end).
    { unfold readiness_body. rewrite join_lines_concat.
      destruct results; reflexivity. }
    rewrite <- Hb. destruct (any_failed results); eauto.
  - reflexivity.
  - intros nameA nameB chkA chkB Hcs HA HB.
    unfold check_results. rewrite Hcs. cbn [map fst snd]. rewrite HA, HB.
    reflexivity.
Qed.

(** *** Liveness evaluation *)

Lemma readiness_failing_step (a : app T) (req : Request) :
  URL_Path req = readinessPath (opts a) ->
  any_failed (check_results (registry a) (req_ctx req)) = true ->
  snd (fst (ServeHTTP find req a))
  = set_readinessFailed (Int64.add (readinessFailed a) 1) a.
Proof.
  intros Hp Hf. rewrite (ServeHTTP_readiness a req Hp).
  unfold serve_destination. rewrite Hf. reflexivity.
Qed.

Lemma readiness_passing_step (a : app T) (req : Request) :
  URL_Path req = readinessPath (opts a) ->
  any_failed (check_results (registry a) (req_ctx req)) = false ->
  snd (fst (ServeHTTP find req a)) = set_readinessFailed 0 a.
Proof.
  intros Hp Hf. rewrite (ServeHTTP_readiness a req Hp).
  unfold serve_destination. rewrite Hf. reflexivity.
Qed.

Lemma liveness_response (a : app T) (req : Request) :
  URL_Path req <> readinessPath (opts a) ->
  URL_Path req = livenessPath (opts a) ->
  ServeHTTP find req a
  = (Returned tt, a,
     [if cascaded (opts a) (readinessFailed a)
      then EvRespond 500 "CASCADED"
      else EvRespond 200 "OK"]).
Proof.
  intros Hr Hl. rewrite (ServeHTTP_liveness a req Hr Hl).
  unfold serve_destination. destruct (cascaded _ _); reflexivity.
Qed.

Lemma cascaded_true (o : options) (counter : Z) :
  cascaded o counter = true
  <-> 0 < readinessCascade o /\ readinessCascade o < counter.
Proof. unfold cascaded. rewrite andb_true_iff, !Z.ltb_lt. reflexivity. Qed.

(** C3, amended: for every request whose path is the liveness path and
    is not also the readiness path, the response is 500 ["CASCADED"] if
    and only if [readinessCascade > 0] and the counter is strictly greater
    than [readinessCascade], and it is 200 ["OK"] otherwise.  With
    [readinessCascade = 2] and a counter at 0, the liveness response after
    two failing readiness evaluations is 200 ["OK"], and after a third one
    it is 500 ["CASCADED"]. *)
Theorem ServeHTTP_liveness_cascade (a : app T) (req : Request) :
  URL_Path req <> readinessPath (opts a) ->
  URL_Path req = livenessPath (opts a) ->
  (ServeHTTP find req a = (Returned tt, a, [EvRespond 500 "CASCADED"])
   \/ ServeHTTP find req a = (Returned tt, a, [EvRespond 200 "OK"]))
  /\ (ServeHTTP find req a = (Returned tt, a, [EvRespond 500 "CASCADED"])
      <-> 0 < readinessCascade (opts a)
          /\ readinessCascade (opts a) < readinessFailed a)
  /\ (readinessCascade (opts a) = 2 ->
      readinessFailed a = 0 ->
      forall r1 r2 r3 : Request,
        Forall (fun r =>
                  URL_Path r = readinessPath (opts a)
                  /\ exists name msg,
                       In (name, Some msg)
                         (check_results (registry a) (req_ctx r)))
          [r1; r2; r3] ->
        snd (ServeHTTP find req (serve_all find [r1; r2] a))
        = [EvRespond 200 "OK"]
        /\ snd (ServeHTTP find req (serve_all find [r1; r2; req; r3] a))
           = [EvRespond 500 "CASCADED"]).
Proof.
  intros Hr Hl. rewrite (liveness_response a req Hr Hl).
  split; [|split].
  - destruct (cascaded _ _); auto.
  - rewrite <- cascaded_true. destruct (cascaded _ _); split;
      congruence.
  - intros Hc H0 r1 r2 r3 Hall.
    apply Forall_cons in Hall as [[Hp1 Hf1] Hall].
    apply Forall_cons in Hall as [[Hp2 Hf2] Hall].
    apply Forall_cons in Hall as [[Hp3 Hf3] _].
    apply any_failed_true in Hf1, Hf2, Hf3.
    unfold serve_all. cbn [fold_left].
    rewrite (readiness_failing_step a r1 Hp1 Hf1).
    set (a1 := set_readinessFailed (Int64.add (readinessFailed a) 1) a).
    rewrite (readiness_failing_step a1 r2 Hp2 Hf2).
    set (a2 := set_readinessFailed (Int64.add (readinessFailed a1) 1) a1).
    rewrite (liveness_response a2 req Hr Hl). cbn [fst snd].
    rewrite (readiness_failing_step a2 r3 Hp3 Hf3).
    set (a3 := set_readinessFailed (Int64.add (readinessFailed a2) 1) a2).
    rewrite (liveness_response a3 req Hr Hl). cbn [fst snd].
    subst a3 a2 a1. cbn [readinessFailed set_readinessFailed opts].
    unfold cascaded. rewrite Hc, H0. split; reflexivity.
Qed.

(** C8, amended: handling a request whose path is the liveness path and
    is not also the readiness path invokes no registered check and leaves
    the counter, and every other field of the application, unchanged; its
    response depends on the counter and on [readinessCascade] only. *)
Theorem ServeHTTP_liveness_pure_read (a : app T) (req : Request) :
  URL_Path req <> readinessPath (opts a) ->
  URL_Path req = livenessPath (opts a) ->
  (exists status body,
     ServeHTTP find req a = (Returned tt, a, [EvRespond status body]))
  /\ filter (fun e => check_event e = true) (snd (ServeHTTP find req a)) = []
  /\ readinessFailed (snd (fst (ServeHTTP find req a))) = readinessFailed a
  /\ (forall (a2 : app T) (req2 : Request),
        URL_Path req2 <> readinessPath (opts a2) ->
        URL_Path req2 = livenessPath (opts a2) ->
        readinessFailed a2 = readinessFailed a ->
        readinessCascade (opts a2) = readinessCascade (opts a) ->
        snd (ServeHTTP find req2 a2) = snd (ServeHTTP find req a)).
Proof.
  intros Hr Hl. rewrite (liveness_response a req Hr Hl).
  repeat split.
  - destruct (cascaded _ _); eauto.
  - destruct (cascaded _ _); reflexivity.
  - intros a2 req2 Hr2 Hl2 Hf Hc. rewrite (liveness_response a2 req2 Hr2 Hl2).
    unfold cascaded. rewrite Hf, Hc. reflexivity.
Qed.

(** *** Consecutive readiness evaluations *)

Lemma set_readinessFailed_id (a : app T) :
  set_readinessFailed (readinessFailed a) a = a.
Proof. destruct a. reflexivity. Qed.

Lemma serve_all_passing (a : app T) (reqs : list Request) (v : Z) :
  Forall (fun r =>
            URL_Path r = readinessPath (opts a)
            /\ Forall (fun res => snd res = None)
                 (check_results (registry a) (req_ctx r))) reqs ->
  serve_all find reqs (set_readinessFailed v a)
  = set_readinessFailed (match reqs with [] => v | _ => 0 end) a.
Proof.
  revert v. induction reqs as [|r reqs IH]; intros v Hall; [reflexivity|].
  apply Forall_cons in Hall as [[Hp Hok] Hall].
  apply any_failed_false in Hok.
  unfold serve_all. cbn [fold_left].
  rewrite (readiness_passing_step (set_readinessFailed v a) r Hp Hok).
  change (set_readinessFailed 0 (set_readinessFailed v a))
    with (set_readinessFailed 0 a).
  fold (serve_all find reqs (set_readinessFailed 0 a)).
  rewrite (IH 0 Hall). destruct reqs; reflexivity.
Qed.

(** C9: whatever the counter holds, [N >= 1] readiness evaluations in a
    row in which every check passes leave it at 0 (and change nothing
    else), for every [N]. *)
Theorem readiness_reset_idempotent (a : app T) (reqs : list Request) (N : nat) :
  length reqs = N ->
  (1 <= N)%nat ->
  Forall (fun r =>
            URL_Path r = readinessPath (opts a)
            /\ Forall (fun res => snd res = None)
                 (check_results (registry a) (req_ctx r))) reqs ->
  readinessFailed (serve_all find reqs a) = 0
  /\ serve_all find reqs a = set_readinessFailed 0 a.
Proof.
  intros Hlen HN Hall.
  pose proof (serve_all_passing a reqs (readinessFailed a) Hall) as Hrun.
  rewrite set_readinessFailed_id in Hrun. rewrite Hrun.
  destruct reqs; [simpl in Hlen; lia|]. split; reflexivity.
Qed.

(** *** The route table and the context lifecycle *)

Lemma route_handler_run {S} (a : app T) pattern (fn : HandlerFunc T) req (s : S) :
  route_handler a pattern fn req s
  = match fn (cf a req) with
    | Blocked => (Blocked, s, lifecycle_prefix pattern (cf a req))
    | r => (r, s, lifecycle_prefix pattern (cf a req) ++ [EvPerform (cf a req)])
    end.
Proof.
  unfold route_handler, bind, emit, with_defer, Inject, Perform, call,
    lifecycle_prefix.
  destruct (fn (cf a req)) as [[]| |]; reflexivity.
Qed.

Lemma hMain_run {S} (a : app T) req (s : S) :
  hMain find a req s = (main_result find a req, s, main_log find a req).
Proof.
  unfold main_result, main_log, hMain.
  destruct (find (map fst (mux a)) req) as [pattern|]; [|reflexivity].
  destruct (route_of (mux a) pattern) as [fn|]; [|reflexivity].
  rewrite !route_handler_run. destruct (fn (cf a req)) as [[]| |]; reflexivity.
Qed.

Lemma main_log_no_gate (a : app T) req :
  filter (fun e => gate_event e = true) (main_log find a req) = [].
Proof.
  unfold main_log, hMain.
  destruct (find (map fst (mux a)) req) as [pattern|]; [|reflexivity].
  destruct (route_of (mux a) pattern) as [fn|]; [|reflexivity].
  rewrite route_handler_run. destruct (fn (cf a req)) as [[]| |]; reflexivity.
Qed.

(** *** The admission gate *)

Lemma app_route_spec (a : app T) (req : Request) :
  app_route a req = true
  <-> URL_Path req <> readinessPath (opts a)
      /\ URL_Path req <> livenessPath (opts a)
      /\ URL_Path req <> metricsPath (opts a)
      /\ HasPrefix (URL_Path req) "/debug/" = false.
Proof.
  unfold app_route. rewrite !andb_true_iff, !negb_true_iff, !String.eqb_neq.
  tauto.
Qed.

Lemma app_route_reserved (a : app T) (req : Request) :
  app_route a req = false
  <-> URL_Path req = readinessPath (opts a)
      \/ URL_Path req = livenessPath (opts a)
      \/ URL_Path req = metricsPath (opts a)
      \/ HasPrefix (URL_Path req) "/debug/" = true.
Proof.
  unfold app_route.
  destruct (String.eqb_spec (URL_Path req) (readinessPath (opts a)));
    [cbn; tauto|].
  destruct (String.eqb_spec (URL_Path req) (livenessPath (opts a)));
    [cbn; tauto|].
  destruct (String.eqb_spec (URL_Path req) (metricsPath (opts a)));
    [cbn; tauto|].
  destruct (HasPrefix (URL_Path req) "/debug/"); cbn; intuition congruence.
Qed.

Lemma app_route_resolve (a : app T) (req : Request) :
  app_route a req = true <-> resolve (opts a) (URL_Path req) = Application.
Proof.
  rewrite app_route_spec.
  destruct (resolve_cases (opts a) (URL_Path req))
    as [[? Hd]|[(? & ? & Hd)|[(? & ? & ? & Hd)
       |[(? & ? & ? & ? & Hd)|(? & ? & ? & ? & Hd)]]]];
    rewrite Hd; intuition congruence.
Qed.

Lemma set_cc_id (a : app T) : set_cc (cc a) a = a.
Proof. destruct a. reflexivity. Qed.

(** A request on the application route with the gate disabled. *)
Lemma ServeHTTP_ungated (a : app T) (req : Request) :
  app_route a req = true ->
  cc a = None ->
  ServeHTTP find req a = (main_result find a req, a, main_log find a req).
Proof.
  intros Hroute Hcc. rewrite ServeHTTP_resolve.
  apply app_route_resolve in Hroute. rewrite Hroute.
  unfold serve_destination. rewrite Hcc. apply hMain_run.
Qed.

(** A request on the application route that finds a permit, and whose
    handler returns or panics. *)
Lemma ServeHTTP_gated (a : app T) (req : Request) (ch : chan) :
  app_route a req = true ->
  cc a = Some ch ->
  0 < chan_len ch <= chan_cap ch ->
  main_result find a req <> Blocked ->
  ServeHTTP find req a
  = (main_result find a req, a, EvAcquire :: main_log find a req ++ [EvRelease]).
Proof.
  intros Hroute Hcc Hlen Hres. rewrite ServeHTTP_resolve.
  apply app_route_resolve in Hroute. rewrite Hroute.
  unfold serve_destination. rewrite Hcc.
  unfold bind, recv_cc, chan_recv. rewrite Hcc.
  destruct (Z.ltb_spec 0 (chan_len ch)); [|lia].
  unfold with_defer. rewrite hMain_run.
  unfold send_cc, chan_send. cbn [cc set_cc chan_len chan_cap].
  destruct (Z.ltb_spec (chan_len ch - 1) (chan_cap ch)); [|lia].
  replace (chan_len ch - 1 + 1) with (chan_len ch) by lia.
  assert (Ha : set_cc (Some {| chan_cap := chan_cap ch; chan_len := chan_len ch |})
                 (set_cc (Some {| chan_cap := chan_cap ch;
                                  chan_len := chan_len ch - 1 |}) a) = a).
  { rewrite <- (set_cc_id a) at 2. rewrite Hcc. destruct ch. reflexivity. }
  destruct (main_result find a req) as [[]| |]; try congruence;
    cbn; rewrite Ha; reflexivity.
Qed.

(** The same request when the handler never comes back: the permit stays
    taken. *)
Lemma ServeHTTP_gated_parked (a : app T) (req : Request) (ch : chan) :
  app_route a req = true ->
  cc a = Some ch ->
  0 < chan_len ch ->
  main_result find a req = Blocked ->
  ServeHTTP find req a
  = (Blocked,
     set_cc (Some {| chan_cap := chan_cap ch; chan_len := chan_len ch - 1 |}) a,
     EvAcquire :: main_log find a req).
Proof.
  intros Hroute Hcc Hlen Hres. rewrite ServeHTTP_resolve.
  apply app_route_resolve in Hroute. rewrite Hroute.
  unfold serve_destination. rewrite Hcc.
  unfold bind, recv_cc, chan_recv. rewrite Hcc.
  destruct (Z.ltb_spec 0 (chan_len ch)); [|lia].
  unfold with_defer. rewrite hMain_run, Hres. reflexivity.
Qed.

(** The same request when no permit is left: it parks at the gate. *)
Lemma ServeHTTP_gate_exhausted (a : app T) (req : Request) (ch : chan) :
  app_route a req = true ->
  cc a = Some ch ->
  chan_len ch <= 0 ->
  ServeHTTP find req a = (Blocked, a, []).
Proof.
  intros Hroute Hcc Hlen. rewrite ServeHTTP_resolve.
  apply app_route_resolve in Hroute. rewrite Hroute.
  unfold serve_destination. rewrite Hcc.
  unfold bind, recv_cc, chan_recv. rewrite Hcc.
  destruct (Z.ltb_spec 0 (chan_len ch)); [lia|]. reflexivity.
Qed.

(** A request to a reserved path: the gate is not read, the state of the
    gate and the log are those of the same request under any other gate. *)
Lemma ServeHTTP_reserved_frame (a : app T) (req : Request) (c : option chan) :
  app_route a req = false ->
  ServeHTTP find req (set_cc c a)
  = (fst (fst (ServeHTTP find req a)),
     set_cc c (snd (fst (ServeHTTP find req a))),
     snd (ServeHTTP find req a)).
Proof.
  intros Hroute. rewrite !ServeHTTP_resolve.
  cbn [opts set_cc].
  destruct (resolve (opts a) (URL_Path req)) eqn:Hd.
  - unfold serve_destination. cbn [registry set_cc readinessFailed].
    destruct (any_failed _); reflexivity.
  - unfold serve_destination. cbn [opts set_cc readinessFailed].
    destruct (cascaded _ _); reflexivity.
  - reflexivity.
  - reflexivity.
  - apply app_route_resolve in Hd. congruence.
Qed.

Lemma ServeHTTP_reserved_cc (a : app T) (req : Request) :
  app_route a req = false ->
  cc (snd (fst (ServeHTTP find req a))) = cc a.
Proof.
  intros Hroute. rewrite ServeHTTP_resolve.
  destruct (resolve (opts a) (URL_Path req)) eqn:Hd; unfold serve_destination.
  - destruct (any_failed _); reflexivity.
  - destruct (cascaded _ _); reflexivity.
  - reflexivity.
  - reflexivity.
  - apply app_route_resolve in Hd. congruence.
Qed.

Lemma ServeHTTP_reserved_no_gate (a : app T) (req : Request) :
  app_route a req = false ->
  filter (fun e => gate_event e = true) (snd (ServeHTTP find req a)) = [].
Proof.
  intros Hroute. rewrite ServeHTTP_resolve.
  destruct (resolve (opts a) (URL_Path req)) eqn:Hd; unfold serve_destination.
  - destruct (any_failed _); cbn [snd]; rewrite filter_app;
      cbn; rewrite app_nil_r;
      induction (check_results (registry a) (req_ctx req)); auto.
  - destruct (cascaded _ _); reflexivity.
  - reflexivity.
  - reflexivity.
  - apply app_route_resolve in Hd. congruence.
Qed.

(** *** Requests served concurrently *)

Lemma permits_held_app (ts1 ts2 : list task) :
  permits_held (ts1 ++ ts2) = permits_held ts1 + permits_held ts2.
Proof. induction ts1 as [|t ts1 IH]; cbn [permits_held Datatypes.app]; lia. Qed.

Lemma permits_held_insert (ts : list task) (i : nat) (t t' : task) :
  ts !! i = Some t ->
  permits_held (<[i := t']> ts)
  = permits_held ts - (if holds_permit t then 1 else 0)
    + (if holds_permit t' then 1 else 0).
Proof.
  revert i. induction ts as [|t0 ts IH]; intros [|i] Hi; try discriminate.
  - injection Hi as ->. cbn [permits_held insert list_insert].
    destruct (holds_permit t), (holds_permit t'); lia.
  - change (<[S i := t']> (t0 :: ts)) with (t0 :: <[i := t']> ts).
    cbn [permits_held]. cbn in Hi. rewrite (IH i Hi).
    destruct (holds_permit t), (holds_permit t'), (holds_permit t0); lia.
Qed.

Lemma permits_held_lookup (ts : list task) (i : nat) (t : task) :
  ts !! i = Some t ->
  0 <= permits_held ts
  /\ (if holds_permit t then 1 else 0) <= permits_held ts.
Proof.
  revert i. induction ts as [|t0 ts IH]; intros [|i] Hi; try discriminate.
  - injection Hi as ->. cbn [permits_held].
    assert (0 <= permits_held ts).
    { clear. induction ts as [|t1 ts IH]; cbn [permits_held];
        [lia | destruct (holds_permit t1); lia]. }
    destruct (holds_permit t); lia.
  - cbn in Hi. cbn [permits_held]. destruct (IH i Hi).
    destruct (holds_permit t0), (holds_permit t); lia.
Qed.

(** One step of a goroutine moves a permit between the buffer and the
    goroutine, or leaves the gate alone. *)
Lemma task_step_gate (a a' : app T) (t t' : task) (log : list (event T))
    (ch : chan) :
  task_step find a t = Some (a', t', log) ->
  cc a = Some ch ->
  exists ch',
    cc a' = Some ch'
    /\ chan_cap ch' = chan_cap ch
    /\ (0 <= chan_len ch -> 0 <= chan_len ch')
    /\ chan_len ch' + (if holds_permit t' then 1 else 0)
       = chan_len ch + (if holds_permit t then 1 else 0).
Proof.
  intros Hstep Hcc.
  destruct t as [req|req held|held|r [|]|r]; cbn [task_step] in Hstep.
  - destruct (app_route a req) eqn:Hroute.
    + rewrite Hcc in Hstep. unfold recv_cc, chan_recv in Hstep.
      rewrite Hcc in Hstep.
      destruct (Z.ltb_spec 0 (chan_len ch)); [|discriminate].
      injection Hstep as <- <- <-. eexists. split; [reflexivity|].
      cbn. repeat split; lia.
    + pose proof (ServeHTTP_reserved_cc a req Hroute) as Hsame.
      destruct (ServeHTTP find req a) as [[r a1] log1].
      injection Hstep as <- <- <-. cbn in Hsame. exists ch.
      rewrite Hsame. cbn. auto.
  - rewrite hMain_run in Hstep.
    destruct (main_result find a req) as [[]| |];
      injection Hstep as <- <- <-; exists ch; cbn; auto.
  - discriminate.
  - unfold send_cc, chan_send in Hstep. rewrite Hcc in Hstep.
    destruct (Z.ltb_spec (chan_len ch) (chan_cap ch)); [|discriminate].
    injection Hstep as <- <- <-. eexists. split; [reflexivity|].
    cbn. repeat split; lia.
  - injection Hstep as <- <- <-. exists ch. cbn. auto.
  - discriminate.
Qed.

Lemma task_step_ungated (a a' : app T) (t t' : task) (log : list (event T)) :
  task_step find a t = Some (a', t', log) ->
  cc a = None ->
  holds_permit t = false ->
  cc a' = None /\ holds_permit t' = false.
Proof.
  intros Hstep Hcc Hheld.
  destruct t as [req|req held|held|r [|]|r];
    cbn [task_step holds_permit] in Hstep, Hheld; try discriminate.
  - destruct (app_route a req) eqn:Hroute.
    + rewrite Hcc in Hstep. injection Hstep as <- <- <-. auto.
    + pose proof (ServeHTTP_reserved_cc a req Hroute) as Hsame.
      destruct (ServeHTTP find req a) as [[r a1] log1].
      injection Hstep as <- <- <-. cbn in Hsame. split; [congruence|reflexivity].
  - rewrite hMain_run in Hstep.
    destruct (main_result find a req) as [[]| |];
      injection Hstep as <- <- <-; auto.
  - injection Hstep as <- <- <-. auto.
Qed.

(** What one step of a goroutine adds to its log of the gate. *)
Lemma task_step_gate_log (a a' : app T) (t t' : task)
    (log l : list (event T)) :
  task_step find a t = Some (a', t', log) ->
  expected_gate_log t l ->
  expected_gate_log t' (l ++ filter (fun e => gate_event e = true) log).
Proof.
  intros Hstep Hl. destruct t as [req|req held|held|r [|]|r];
    cbn [task_step expected_gate_log] in Hstep, Hl; try discriminate; subst l.
  - destruct (app_route a req) eqn:Hroute.
    + destruct (cc a) as [ch|] eqn:Hcc.
      * unfold recv_cc, chan_recv in Hstep. rewrite Hcc in Hstep.
        destruct (0 <? chan_len ch); [|discriminate].
        injection Hstep as <- <- <-. reflexivity.
      * injection Hstep as <- <- <-. reflexivity.
    + pose proof (ServeHTTP_reserved_no_gate a req Hroute) as Hno.
      destruct (ServeHTTP find req a) as [[r a1] log1].
      injection Hstep as <- <- <-. cbn in Hno. rewrite Hno. left. reflexivity.
  - rewrite hMain_run in Hstep.
    pose proof (main_log_no_gate a req) as Hno.
    destruct (main_result find a req) as [[]| |];
      injection Hstep as <- <- <-; rewrite Hno, app_nil_r; reflexivity.
  - unfold send_cc in Hstep. destruct (cc a) as [ch|]; [|discriminate].
    destruct (chan_send ch); [|discriminate].
    injection Hstep as <- <- <-. right. reflexivity.
  - injection Hstep as <- <- <-. left. reflexivity.
Qed.


Lemma filter_own_log (i j : nat) (log : list (event T)) :
  map snd (filter (fun p : nat * event T => fst p = j) (map (pair i) log))
  = if decide (i = j) then log else [].
Proof.
  induction log as [|e log IH]; [destruct (decide (i = j)); reflexivity|].
  cbn [map]. rewrite filter_cons. cbn [fst].
  destruct (decide (i = j)); cbn [map snd]; rewrite IH; reflexivity.
Qed.

Lemma gate_log_step (s : system T) (i j : nat) (log : list (event T)) a ts :
  gate_log {| sys_app := a; sys_tasks := ts;
              sys_log := sys_log s ++ map (pair i) log |} j
  = gate_log s j
    ++ (if decide (i = j) then filter (fun e => gate_event e = true) log
        else []).
Proof.
  unfold gate_log. cbn [sys_log].
  rewrite filter_app, map_app, filter_app, filter_own_log.
  destruct (decide (i = j)); reflexivity.
Qed.

Lemma sys_step_gate_inv (n : Z) (s : system T) (act : action) :
  gate_inv n s -> gate_inv n (sys_step find s act).
Proof.
  intros (ch & Hcc & Hcap & Hlen & Hsum). destruct act as [req|i].
  - exists ch. cbn [sys_step sys_app sys_tasks].
    rewrite permits_held_app. cbn. repeat split; auto; lia.
  - cbn [sys_step]. destruct (sys_tasks s !! i) as [t|] eqn:Hi;
      [|exists ch; auto].
    destruct (task_step find (sys_app s) t) as [[[a' t'] log]|] eqn:Hstep;
      [|exists ch; auto].
    destruct (task_step_gate _ _ _ _ _ _ Hstep Hcc)
      as (ch' & Hcc' & Hcap' & Hlen' & Hmove).
    exists ch'. cbn [sys_app sys_tasks].
    rewrite (permits_held_insert _ _ _ t' Hi).
    repeat split; auto; lia.
Qed.

Lemma sys_step_ungated (s : system T) (act : action) :
  ungated s -> ungated (sys_step find s act).
Proof.
  intros [Hcc Hheld]. destruct act as [req|i].
  - split; [exact Hcc|]. cbn [sys_step sys_tasks].
    rewrite permits_held_app, Hheld. reflexivity.
  - cbn [sys_step]. destruct (sys_tasks s !! i) as [t|] eqn:Hi;
      [|split; auto].
    destruct (task_step find (sys_app s) t) as [[[a' t'] log]|] eqn:Hstep;
      [|split; auto].
    assert (Ht : holds_permit t = false).
    { destruct (permits_held_lookup _ _ _ Hi) as [_ Hle].
      destruct (holds_permit t); [lia | reflexivity]. }
    destruct (task_step_ungated _ _ _ _ _ Hstep Hcc Ht) as [Hcc' Ht'].
    split; [exact Hcc'|]. cbn [sys_tasks].
    rewrite (permits_held_insert _ _ _ t' Hi), Ht, Ht', Hheld. reflexivity.
Qed.

Lemma sys_step_gate_log_inv (s : system T) (act : action) :
  gate_log_inv s -> gate_log_inv (sys_step find s act).
Proof.
  intros Hinv. destruct act as [req|i].
  - intros j. specialize (Hinv j). cbn [sys_step sys_tasks].
    change (gate_log {| sys_app := sys_app s;
                        sys_tasks := sys_tasks s ++ [TEntry req];
                        sys_log := sys_log s |} j) with (gate_log s j).
    destruct (sys_tasks s !! j) as [t|] eqn:Hj.
    + rewrite (lookup_app_l_Some _ _ _ _ Hj). exact Hinv.
    + apply lookup_ge_None in Hj.
      destruct (decide (j = length (sys_tasks s))) as [->|Hne].
      * rewrite lookup_app_r, Nat.sub_diag by lia. exact Hinv.
      * rewrite lookup_ge_None_2; [exact Hinv|].
        rewrite length_app. cbn. lia.
  - cbn [sys_step]. destruct (sys_tasks s !! i) as [t|] eqn:Hi; [|exact Hinv].
    destruct (task_step find (sys_app s) t) as [[[a' t'] log]|] eqn:Hstep;
      [|exact Hinv].
    intros j. rewrite gate_log_step. cbn [sys_tasks].
    pose proof (Hinv j) as Hj.
    destruct (decide (i = j)) as [<-|Hne].
    + rewrite list_lookup_insert_eq by (by eapply lookup_lt_Some).
      rewrite Hi in Hj. by eapply task_step_gate_log.
    + rewrite list_lookup_insert_ne by done. rewrite app_nil_r. exact Hj.
Qed.

Lemma sys_run_invariant (P : system T -> Prop) :
  (forall s act, P s -> P (sys_step find s act)) ->
  forall schedule s, P s -> P (sys_run find s schedule).
Proof.
  intros Hstep schedule. unfold sys_run.
  induction schedule as [|act schedule IH]; intros s Hs; [exact Hs|].
  cbn [fold_left]. apply IH, Hstep, Hs.
Qed.

(** The deferred send of a goroutine that holds a permit finds room in the
    buffer. *)
Lemma release_never_parks (n : Z) (s : system T) (i : nat) (r : result unit) :
  gate_inv n s ->
  sys_tasks s !! i = Some (TExiting r true) ->
  exists a',
    task_step find (sys_app s) (TExiting r true)
    = Some (a', TDone r, [EvRelease])
    /\ permits_available a' = permits_available (sys_app s) + 1.
Proof.
  intros (ch & Hcc & Hcap & Hlen & Hsum) Hi.
  destruct (permits_held_lookup _ _ _ Hi) as [_ Hle]. cbn in Hle.
  cbn [task_step]. unfold send_cc, chan_send, permits_available.
  rewrite Hcc. destruct (Z.ltb_spec (chan_len ch) (chan_cap ch)); [|lia].
  eexists. split; reflexivity.
Qed.


(** *** Construction *)

Variables DefaultReadinessPath DefaultLivenessPath DefaultMetricsPath : string.
Variables promhttp_Handler pprof_mux : ExternalHandler.

Abbreviation configured options_ :=
  (@apply_options DefaultReadinessPath DefaultLivenessPath DefaultMetricsPath
     options_).
Abbreviation New_ cf_ options_ :=
  (@New T DefaultReadinessPath DefaultLivenessPath DefaultMetricsPath
     promhttp_Handler pprof_mux cf_ options_).

Lemma fill_spec (k : nat) (cap len : Z) :
  0 <= len ->
  len + Z.of_nat k <= cap ->
  fill k {| chan_cap := cap; chan_len := len |}
  = Some {| chan_cap := cap; chan_len := len + Z.of_nat k |}.
Proof.
  revert len. induction k as [|k IH]; intros len H0 Hle.
  - cbn [fill]. do 2 f_equal. lia.
  - cbn [fill]. unfold chan_send. cbn [chan_len chan_cap].
    destruct (Z.ltb_spec len cap); [|lia].
    rewrite IH by lia. do 2 f_equal. lia.
Qed.

Lemma New_gated (cf_ : ContextFactory) (options_ : list Option_) :
  0 < concurrency (configured options_) ->
  exists a0 : app T,
    New_ cf_ options_ = Returned a0
    /\ cc a0 = Some {| chan_cap := concurrency (configured options_);
                       chan_len := concurrency (configured options_) |}
    /\ opts a0 = configured options_
    /\ readinessFailed a0 = 0.
Proof.
  intros Hn. unfold New. destruct (Z.ltb_spec 0 (concurrency (configured options_)));
    [|lia].
  unfold make_chan. rewrite fill_spec by lia.
  rewrite Z2Nat.id, Z.add_0_l by lia.
  eexists. split; [reflexivity|]. cbn. auto.
Qed.

Lemma New_ungated (cf_ : ContextFactory) (options_ : list Option_) :
  concurrency (configured options_) <= 0 ->
  exists a0 : app T,
    New_ cf_ options_ = Returned a0
    /\ cc a0 = None
    /\ opts a0 = configured options_
    /\ readinessFailed a0 = 0.
Proof.
  intros Hn. unfold New. destruct (Z.ltb_spec 0 (concurrency (configured options_)));
    [lia|].
  eexists. split; [reflexivity|]. cbn. auto.
Qed.


Lemma sys_init_gate_inv (a : app T) (n : Z) :
  0 <= n ->
  cc a = Some {| chan_cap := n; chan_len := n |} ->
  gate_inv n (sys_init a).
Proof.
  intros Hn Hcc. exists {| chan_cap := n; chan_len := n |}.
  cbn. repeat split; auto; lia.
Qed.

Lemma sys_init_gate_log_inv (a : app T) : gate_log_inv (sys_init a).
Proof. intros i. cbn. rewrite lookup_nil. reflexivity. Qed.

Lemma gate_inv_count (n : Z) (s : system T) :
  gate_inv n s ->
  permits_available (sys_app s) + permits_held (sys_tasks s) = n
  /\ 0 <= permits_available (sys_app s) <= n
  /\ 0 <= permits_held (sys_tasks s) <= n.
Proof.
  intros (ch & Hcc & Hcap & Hlen & Hsum). unfold permits_available.
  rewrite Hcc.
  assert (0 <= permits_held (sys_tasks s)).
  { generalize (sys_tasks s). intros ts.
    induction ts as [|t ts IH]; cbn [permits_held];
      [lia | destruct (holds_permit t); lia]. }
  lia.
Qed.

(** C4: with [concurrency > 0], [New] returns with a gate that holds
    exactly [concurrency] permits.  A dispatch on the application route
    that takes a permit gives it back exactly once, after [a.hMain] has
    returned or panicked, and leaves the gate as it found it.  Under any
    interleaving of any requests, the permits in the buffer plus the
    permits held by requests are [concurrency]; every request has logged
    one acquire while it holds a permit and one acquire followed by one
    release once it is over; and the deferred release of a request never
    parks. *)
Theorem gate_permits_conserved (cf_ : ContextFactory) (options_ : list Option_) :
  0 < concurrency (configured options_) ->
  exists a0 : app T,
    New_ cf_ options_ = Returned a0
    /\ cc a0 = Some {| chan_cap := concurrency (configured options_);
                       chan_len := concurrency (configured options_) |}
    /\ (forall (a : app T) (req : Request) (ch : chan),
          cc a = Some ch ->
          0 < chan_len ch <= chan_cap ch ->
          app_route a req = true ->
          main_result find a req <> Blocked ->
          ServeHTTP find req a
          = (main_result find a req, a,
             EvAcquire :: main_log find a req ++ [EvRelease])
          /\ filter (fun e => gate_event e = true) (main_log find a req) = [])
    /\ (forall (a : app T) (schedule : list action),
          cc a = cc a0 ->
          permits_available (sys_app (sys_run find (sys_init a) schedule))
          + permits_held (sys_tasks (sys_run find (sys_init a) schedule))
          = concurrency (configured options_)
          /\ 0 <= permits_available
                    (sys_app (sys_run find (sys_init a) schedule))
          /\ 0 <= permits_held
                    (sys_tasks (sys_run find (sys_init a) schedule))
          /\ gate_log_inv (sys_run find (sys_init a) schedule)
          /\ (forall (i : nat) (r : result unit),
                sys_tasks (sys_run find (sys_init a) schedule) !! i
                = Some (TExiting r true) ->
                exists a',
                  task_step find
                    (sys_app (sys_run find (sys_init a) schedule))
                    (TExiting r true)
                  = Some (a', TDone r, [EvRelease])
                  /\ permits_available a'
                     = permits_available
                         (sys_app (sys_run find (sys_init a) schedule)) + 1)).
Proof.
  intros Hn. destruct (New_gated cf_ options_ Hn) as (a0 & HNew & Hcc0 & _).
  exists a0. split; [exact HNew|]. split; [exact Hcc0|]. split.
  - intros a req ch Hcc Hlen Hroute Hres.
    split; [by eapply ServeHTTP_gated | apply main_log_no_gate].
  - intros a schedule Hcc. rewrite Hcc0 in Hcc.
    set (n := concurrency (configured options_)) in *.
    assert (Hinv : gate_inv n (sys_run find (sys_init a) schedule)).
    { apply sys_run_invariant; [apply sys_step_gate_inv|].
      apply sys_init_gate_inv; [lia | exact Hcc]. }
    assert (Hlog : gate_log_inv (sys_run find (sys_init a) schedule)).
    { apply sys_run_invariant;
        [apply sys_step_gate_log_inv | apply sys_init_gate_log_inv]. }
    destruct (gate_inv_count _ _ Hinv) as (Hsum & Hav & Hheld).
    repeat split; try lia; try exact Hlog.
    intros i r Hi. by eapply release_never_parks.
Qed.

Lemma sys_init_ungated (a : app T) : cc a = None -> ungated (sys_init a).
Proof. intros Hcc. split; [exact Hcc | reflexivity]. Qed.

(** C10: for every configured [concurrency <= 0], negative values
    included, [New] returns with no gate ([a.cc] is nil).  A request on
    the application route is then served by [a.hMain] directly: it does
    not wait, it logs no acquire and no release, and under any
    interleaving no request ever holds a permit. *)
Theorem nonpositive_concurrency_disables_gate
    (cf_ : ContextFactory) (options_ : list Option_) :
  concurrency (configured options_) <= 0 ->
  exists a0 : app T,
    New_ cf_ options_ = Returned a0
    /\ cc a0 = None
    /\ (forall (a : app T) (req : Request),
          cc a = cc a0 ->
          app_route a req = true ->
          ServeHTTP find req a
          = (main_result find a req, a, main_log find a req)
          /\ filter (fun e => gate_event e = true)
               (snd (ServeHTTP find req a)) = []
          /\ task_step find a (TEntry req) = Some (a, TServing req false, []))
    /\ (forall (a : app T) (schedule : list action),
          cc a = cc a0 ->
          cc (sys_app (sys_run find (sys_init a) schedule)) = None
          /\ permits_held (sys_tasks (sys_run find (sys_init a) schedule)) = 0
          /\ filter (fun e => gate_event e = true)
               (map snd (sys_log (sys_run find (sys_init a) schedule))) = []).
Proof.
  intros Hn. destruct (New_ungated cf_ options_ Hn) as (a0 & HNew & Hcc0 & _).
  exists a0. split; [exact HNew|]. split; [exact Hcc0|]. split.
  - intros a req Hcc Hroute. rewrite Hcc0 in Hcc.
    rewrite (ServeHTTP_ungated a req Hroute Hcc). cbn [snd].
    split; [reflexivity|]. split; [apply main_log_no_gate|].
    cbn [task_step]. rewrite Hroute, Hcc. reflexivity.
  - intros a schedule Hcc. rewrite Hcc0 in Hcc.
    assert (Hinv : ungated (sys_run find (sys_init a) schedule)
                   /\ filter (fun e => gate_event e = true)
                        (map snd (sys_log (sys_run find (sys_init a) schedule)))
                      = []).
    { apply (sys_run_invariant
               (fun s => ungated s
                         /\ filter (fun e => gate_event e = true)
                              (map snd (sys_log s)) = [])).
      - intros s act [Hun Hlog]. split; [by apply sys_step_ungated|].
        destruct act as [req|i]; [exact Hlog|]. cbn [sys_step].
        destruct (sys_tasks s !! i) as [t|] eqn:Hi; [|exact Hlog].
        destruct (task_step find (sys_app s) t) as [[[a' t'] log]|] eqn:Hstep;
          [|exact Hlog].
        cbn [sys_log]. rewrite map_app, filter_app, Hlog, app_nil_l.
        rewrite map_map. cbn [snd]. rewrite map_id.
        destruct Hun as [Hnone Hheld].
        assert (Ht : holds_permit t = false).
        { destruct (permits_held_lookup _ _ _ Hi) as [_ Hle].
          destruct (holds_permit t); [lia | reflexivity]. }
        destruct t as [req|req held|held|r held|r];
          cbn [task_step holds_permit] in Hstep, Ht; subst;
          try discriminate.
        + destruct (app_route (sys_app s) req) eqn:Hroute.
          * rewrite Hnone in Hstep. injection Hstep as <- <- <-. reflexivity.
          * pose proof (ServeHTTP_reserved_no_gate _ req Hroute) as Hno.
            destruct (ServeHTTP find req (sys_app s)) as [[r a1] log1].
            injection Hstep as <- <- <-. exact Hno.
        + rewrite hMain_run in Hstep.
          pose proof (main_log_no_gate (sys_app s) req) as Hno.
          destruct (main_result find (sys_app s) req) as [[]| |];
            injection Hstep as <- <- <-; exact Hno.
        + injection Hstep as <- <- <-. reflexivity.
      - split; [by apply sys_init_ungated | reflexivity]. }
    destruct Hinv as [[Hnone Hheld] Hlog]. auto.
Qed.


(** *** Registered routes *)

Lemma main_run_route (a : app T) (req : Request) (pattern : string)
    (fn : HandlerFunc T) :
  find (map fst (mux a)) req = Some pattern ->
  route_of (mux a) pattern = Some fn ->
  fn (cf a req) <> Blocked ->
  main_result find a req = fn (cf a req)
  /\ main_log find a req
     = lifecycle_prefix pattern (cf a req) ++ [EvPerform (cf a req)].
Proof.
  intros Hfind Hroute Hres. unfold main_result, main_log, hMain.
  rewrite Hfind, Hroute, route_handler_run.
  destruct (fn (cf a req)) as [[]| |]; try congruence; auto.
Qed.

Lemma route_of_app (m : ServeMux T) (pattern : string) (fn : HandlerFunc T) :
  route_of m pattern = None ->
  route_of (m ++ [(pattern, fn)]) pattern = Some fn.
Proof.
  induction m as [|[p f] m IH]; cbn [route_of Datatypes.app].
  - rewrite String.eqb_refl. reflexivity.
  - destruct (String.eqb p pattern); [discriminate | exact IH].
Qed.

(** [HandleFunc] with a pattern that the mux accepts and that is not
    registered yet: the route table maps the pattern to [fn]. *)
Lemma HandleFunc_registers (accepts : list string -> string -> bool)
    (a : app T) (pattern : string) (fn : HandlerFunc T) :
  accepts (map fst (mux a)) pattern = true ->
  route_of (mux a) pattern = None ->
  exists a',
    HandleFunc accepts pattern fn a = (Returned tt, a', [])
    /\ route_of (mux a') pattern = Some fn
    /\ cc a' = cc a /\ opts a' = opts a /\ cf a' = cf a
    /\ registry a' = registry a.
Proof.
  intros Hacc Hnew. unfold HandleFunc. rewrite bind_get.
  unfold ServeMux_Handle. rewrite Hacc.
  eexists. split; [reflexivity|]. cbn. split; [by apply route_of_app | auto].
Qed.


(** C7: a request whose path is the readiness, the liveness or the
    metrics path, or begins with ["/debug/"], never touches the gate: the
    gate is left as it was, no acquire and no release is logged, the
    outcome and the log are the same under any state of the gate, with no
    permit left in particular, and the goroutine of the request finishes
    in one step without waiting. *)
Theorem reserved_paths_bypass_gate (a : app T) (req : Request) :
  URL_Path req = readinessPath (opts a)
  \/ URL_Path req = livenessPath (opts a)
  \/ URL_Path req = metricsPath (opts a)
  \/ HasPrefix (URL_Path req) "/debug/" = true ->
  cc (snd (fst (ServeHTTP find req a))) = cc a
  /\ filter (fun e => gate_event e = true) (snd (ServeHTTP find req a)) = []
  /\ (forall c : option chan,
        ServeHTTP find req (set_cc c a)
        = (fst (fst (ServeHTTP find req a)),
           set_cc c (snd (fst (ServeHTTP find req a))),
           snd (ServeHTTP find req a)))
  /\ fst (fst (ServeHTTP find req a))
     = match resolve (opts a) (URL_Path req) with
       | Metrics => hProm a req
       | Diagnostic => hProf a req
       | _ => Returned tt
       end
  /\ (forall n : Z,
        task_step find
          (set_cc (Some {| chan_cap := n; chan_len := 0 |}) a) (TEntry req)
        = Some (set_cc (Some {| chan_cap := n; chan_len := 0 |})
                  (snd (fst (ServeHTTP find req a))),
                TDone (fst (fst (ServeHTTP find req a))),
                snd (ServeHTTP find req a))).
Proof.
  intros Hres. apply app_route_reserved in Hres.
  split; [by apply ServeHTTP_reserved_cc|].
  split; [by apply ServeHTTP_reserved_no_gate|].
  split; [intros c; by apply ServeHTTP_reserved_frame|].
  split.
  - rewrite ServeHTTP_resolve.
    destruct (resolve (opts a) (URL_Path req)) eqn:Hd; unfold serve_destination.
    + destruct (any_failed _); reflexivity.
    + destruct (cascaded _ _); reflexivity.
    + reflexivity.
    + reflexivity.
    + apply app_route_resolve in Hd. congruence.
  - intros n. cbn [task_step].
    change (app_route (set_cc (Some {| chan_cap := n; chan_len := 0 |}) a) req)
      with (app_route a req).
    rewrite Hres, ServeHTTP_reserved_frame by exact Hres. reflexivity.
Qed.

Lemma run_alone_step (fuel : nat) (a a' : app T) (t t' : task)
    (log log' : list (event T)) :
  task_step find a t = Some (a', t', log') ->
  run_alone find (S fuel) a t log = run_alone find fuel a' t' (log ++ log').
Proof. intros H. cbn [run_alone]. rewrite H. reflexivity. Qed.

Lemma run_alone_stuck (fuel : nat) (a : app T) (t : task) (log : list (event T)) :
  task_step find a t = None ->
  run_alone find fuel a t log = (a, t, log).
Proof. intros H. destruct fuel; cbn [run_alone]; rewrite ?H; reflexivity. Qed.

Lemma set_cc_restore (a : app T) (ch : chan) (c : option chan) :
  cc a = Some ch ->
  set_cc (Some {| chan_cap := chan_cap ch; chan_len := chan_len ch |})
    (set_cc c a) = a.
Proof. intros Hcc. destruct a, ch. cbn in *. subst. reflexivity. Qed.

Local Ltac same_run :=
  cbn [run_alone task_step fst snd Datatypes.app]; rewrite ?app_nil_r;
  split; [reflexivity | split; [reflexivity | first [intros _; reflexivity | congruence]]].

(** The goroutine of a request, run alone, does what [ServeHTTP] does. *)
Lemma run_alone_ServeHTTP (a : app T) (req : Request) :
  (forall ch, cc a = Some ch -> chan_len ch <= chan_cap ch) ->
  fst (fst (run_alone find 3 a (TEntry req) []))
  = snd (fst (ServeHTTP find req a))
  /\ snd (run_alone find 3 a (TEntry req) []) = snd (ServeHTTP find req a)
  /\ (fst (fst (ServeHTTP find req a)) <> Blocked ->
      snd (fst (run_alone find 3 a (TEntry req) []))
      = TDone (fst (fst (ServeHTTP find req a)))).
Proof.
  intros Hwf. destruct (app_route a req) eqn:Hroute.
  - destruct (cc a) as [ch|] eqn:Hcc.
    + specialize (Hwf ch eq_refl).
      destruct (Z.ltb_spec 0 (chan_len ch)) as [Hpos|Hno].
      * set (a1 := set_cc (Some {| chan_cap := chan_cap ch;
                                   chan_len := chan_len ch - 1 |}) a).
        assert (H1 : task_step find a (TEntry req)
                     = Some (a1, TServing req true, [EvAcquire])).
        { cbn [task_step]. rewrite Hroute, Hcc. unfold recv_cc, chan_recv.
          rewrite Hcc. destruct (Z.ltb_spec 0 (chan_len ch)); [|lia].
          reflexivity. }
        rewrite (run_alone_step _ _ _ _ _ _ _ H1).
        destruct (main_result find a req) as [[]| |] eqn:Hres.
        -- assert (H2 : task_step find a1 (TServing req true)
                        = Some (a1, TExiting (Returned tt) true, main_log find a req)).
           { cbn [task_step]. rewrite hMain_run.
             change (main_result find a1 req) with (main_result find a req).
             rewrite Hres. reflexivity. }
           rewrite (run_alone_step _ _ _ _ _ _ _ H2).
           assert (H3 : task_step find a1 (TExiting (Returned tt) true)
                        = Some (a, TDone (Returned tt), [EvRelease])).
           { cbn [task_step]. unfold send_cc, chan_send.
             cbn [cc a1 set_cc chan_len chan_cap].
             destruct (Z.ltb_spec (chan_len ch - 1) (chan_cap ch)); [|lia].
             replace (chan_len ch - 1 + 1) with (chan_len ch) by lia.
             subst a1. rewrite (set_cc_restore a ch _ Hcc). reflexivity. }
           rewrite (run_alone_step _ _ _ _ _ _ _ H3).
           rewrite (ServeHTTP_gated a req ch) by (auto; congruence).
           rewrite Hres. same_run.
        -- assert (H2 : task_step find a1 (TServing req true)
                        = Some (a1, TExiting Panicked true, main_log find a req)).
           { cbn [task_step]. rewrite hMain_run.
             change (main_result find a1 req) with (main_result find a req).
             rewrite Hres. reflexivity. }
           rewrite (run_alone_step _ _ _ _ _ _ _ H2).
           assert (H3 : task_step find a1 (TExiting Panicked true)
                        = Some (a, TDone Panicked, [EvRelease])).
           { cbn [task_step]. unfold send_cc, chan_send.
             cbn [cc a1 set_cc chan_len chan_cap].
             destruct (Z.ltb_spec (chan_len ch - 1) (chan_cap ch)); [|lia].
             replace (chan_len ch - 1 + 1) with (chan_len ch) by lia.
             subst a1. rewrite (set_cc_restore a ch _ Hcc). reflexivity. }
           rewrite (run_alone_step _ _ _ _ _ _ _ H3).
           rewrite (ServeHTTP_gated a req ch) by (auto; congruence).
           rewrite Hres. same_run.
        -- assert (H2 : task_step find a1 (TServing req true)
                        = Some (a1, TParked true, main_log find a req)).
           { cbn [task_step]. rewrite hMain_run.
             change (main_result find a1 req) with (main_result find a req).
             rewrite Hres. reflexivity. }
           rewrite (run_alone_step _ _ _ _ _ _ _ H2).
           rewrite run_alone_stuck by reflexivity.
           rewrite (ServeHTTP_gated_parked a req ch) by auto.
           same_run.
      * rewrite run_alone_stuck.
        -- rewrite (ServeHTTP_gate_exhausted a req ch) by auto.
           same_run.
        -- cbn [task_step]. rewrite Hroute, Hcc. unfold recv_cc, chan_recv.
           rewrite Hcc. destruct (Z.ltb_spec 0 (chan_len ch)); [lia|].
           reflexivity.
    + assert (H1 : task_step find a (TEntry req)
                   = Some (a, TServing req false, [])).
      { cbn [task_step]. rewrite Hroute, Hcc. reflexivity. }
      rewrite (run_alone_step _ _ _ _ _ _ _ H1).
      rewrite (ServeHTTP_ungated a req Hroute Hcc).
      destruct (main_result find a req) as [[]| |] eqn:Hres.
      * assert (H2 : task_step find a (TServing req false)
                     = Some (a, TExiting (Returned tt) false, main_log find a req)).
        { cbn [task_step]. rewrite hMain_run, Hres. reflexivity. }
        rewrite (run_alone_step _ _ _ _ _ _ _ H2).
        same_run.
      * assert (H2 : task_step find a (TServing req false)
                     = Some (a, TExiting Panicked false, main_log find a req)).
        { cbn [task_step]. rewrite hMain_run, Hres. reflexivity. }
        rewrite (run_alone_step _ _ _ _ _ _ _ H2).
        same_run.
      * assert (H2 : task_step find a (TServing req false)
                     = Some (a, TParked false, main_log find a req)).
        { cbn [task_step]. rewrite hMain_run, Hres. reflexivity. }
        rewrite (run_alone_step _ _ _ _ _ _ _ H2).
        same_run.
  - assert (H1 : task_step find a (TEntry req)
                 = Some (snd (fst (ServeHTTP find req a)),
                         TDone (fst (fst (ServeHTTP find req a))),
                         snd (ServeHTTP find req a))).
    { cbn [task_step]. rewrite Hroute.
      destruct (ServeHTTP find req a) as [[r a1] log1]. reflexivity. }
    rewrite (run_alone_step _ _ _ _ _ _ _ H1).
    rewrite run_alone_stuck by reflexivity. same_run.
Qed.

(** *** What a request leaves alone *)

(** The state after any request: only the gate and the counter can differ,
    the counter only after a readiness request, and the gate keeps its
    capacity. *)
Lemma ServeHTTP_state (a : app T) (req : Request) :
  exists (c : option chan) (v : Z),
    snd (fst (ServeHTTP find req a)) = set_cc c (set_readinessFailed v a)
    /\ (URL_Path req <> readinessPath (opts a) -> v = readinessFailed a)
    /\ (v = readinessFailed a \/ v = 0 \/ v = Int64.add (readinessFailed a) 1)
    /\ (cc a = None -> c = None)
    /\ (forall ch, cc a = Some ch ->
        exists ch', c = Some ch' /\ chan_cap ch' = chan_cap ch).
Proof.
  assert (Hsame : a = set_cc (cc a) (set_readinessFailed (readinessFailed a) a))
    by (destruct a; reflexivity).
  assert (Hkeep : forall a1 : app T,
            a1 = a ->
            exists (c : option chan) (v : Z),
              a1 = set_cc c (set_readinessFailed v a)
              /\ (URL_Path req <> readinessPath (opts a) -> v = readinessFailed a)
              /\ (v = readinessFailed a \/ v = 0
                  \/ v = Int64.add (readinessFailed a) 1)
              /\ (cc a = None -> c = None)
              /\ (forall ch, cc a = Some ch ->
                  exists ch', c = Some ch' /\ chan_cap ch' = chan_cap ch)).
  { intros a1 ->. exists (cc a), (readinessFailed a).
    repeat split; eauto. }
  rewrite ServeHTTP_resolve.
  destruct (resolve_cases (opts a) (URL_Path req))
    as [[Hp ->]|[(? & ? & ->)|[(? & ? & ? & ->)
       |[(? & ? & ? & ? & ->)|(? & ? & ? & ? & ->)]]]];
    unfold serve_destination.
  - destruct (any_failed _); cbn [fst snd].
    + exists (cc a), (Int64.add (readinessFailed a) 1).
      repeat split; eauto; congruence.
    + exists (cc a), 0. repeat split; eauto; congruence.
  - destruct (cascaded _ _); apply Hkeep; reflexivity.
  - apply Hkeep; reflexivity.
  - apply Hkeep; reflexivity.
  - destruct (cc a) as [ch|] eqn:Hcc.
    + unfold bind, recv_cc. rewrite Hcc.
      destruct (chan_recv ch) as [ch1|] eqn:Hrecv;
        [|apply Hkeep; reflexivity].
      unfold with_defer. rewrite hMain_run. unfold send_cc.
      cbn [cc set_cc].
      assert (Hcap1 : chan_cap ch1 = chan_cap ch).
      { unfold chan_recv in Hrecv. destruct (0 <? chan_len ch);
          [injection Hrecv as <-; reflexivity | discriminate]. }
      assert (Hout : forall ch2 : chan,
                chan_cap ch2 = chan_cap ch ->
                exists (c : option chan) (v : Z),
                  set_cc (Some ch2) a = set_cc c (set_readinessFailed v a)
                  /\ (URL_Path req <> readinessPath (opts a) ->
                      v = readinessFailed a)
                  /\ (v = readinessFailed a \/ v = 0
                      \/ v = Int64.add (readinessFailed a) 1)
                  /\ (Some ch = None -> c = None)
                  /\ (forall ch0, Some ch = Some ch0 ->
                      exists ch', c = Some ch' /\ chan_cap ch' = chan_cap ch0)).
      { intros ch2 Hcap2. exists (Some ch2), (readinessFailed a).
        repeat split; auto; try discriminate.
        intros ch0 [= <-]. eauto. }
      destruct (chan_send ch1) as [ch2|] eqn:Hsend.
      * assert (Hcap2 : chan_cap ch2 = chan_cap ch).
        { unfold chan_send in Hsend. destruct (chan_len ch1 <? chan_cap ch1);
            [injection Hsend as <-; exact Hcap1 | discriminate]. }
        destruct (main_result find a req) as [[]| |]; cbn [fst snd set_cc];
          first [apply (Hout ch2 Hcap2) | apply (Hout ch1 Hcap1)].
      * destruct (main_result find a req) as [[]| |]; cbn [fst snd];
          apply (Hout ch1 Hcap1).
    + rewrite hMain_run. apply Hkeep; reflexivity.
Qed.

Lemma serve_all_cons (a : app T) (req : Request) (reqs : list Request) :
  serve_all find (req :: reqs) a
  = serve_all find reqs (snd (fst (ServeHTTP find req a))).
Proof. reflexivity. Qed.

Lemma serve_all_app (a : app T) (reqs1 reqs2 : list Request) :
  serve_all find (reqs1 ++ reqs2) a
  = serve_all find reqs2 (serve_all find reqs1 a).
Proof. unfold serve_all. apply fold_left_app. Qed.

Lemma serve_all_state (a : app T) (reqs : list Request) :
  exists (c : option chan) (v : Z),
    serve_all find reqs a = set_cc c (set_readinessFailed v a)
    /\ (Forall (fun r => URL_Path r <> readinessPath (opts a)) reqs ->
        v = readinessFailed a)
    /\ (cc a = None -> c = None)
    /\ (forall ch, cc a = Some ch ->
        exists ch', c = Some ch' /\ chan_cap ch' = chan_cap ch).
Proof.
  revert a. induction reqs as [|r reqs IH]; intros a.
  - exists (cc a), (readinessFailed a). destruct a; cbn. repeat split; eauto.
  - rewrite serve_all_cons.
    destruct (ServeHTTP_state a r) as (c1 & v1 & -> & Hv1 & _ & Hn1 & Hc1).
    destruct (IH (set_cc c1 (set_readinessFailed v1 a)))
      as (c2 & v2 & -> & Hv2 & Hn2 & Hc2).
    exists c2, v2. cbn [opts set_cc set_readinessFailed cc readinessFailed] in *.
    split; [reflexivity|]. split; [|split].
    + intros Hall. apply Forall_cons in Hall as [Hr Hall].
      rewrite (Hv2 Hall). auto.
    + intros Hnone. auto.
    + intros ch Hcc. destruct (Hc1 ch Hcc) as (ch1 & -> & Hcap1).
      destruct (Hc2 ch1 eq_refl) as (ch2 & -> & Hcap2).
      exists ch2. split; [reflexivity | congruence].
Qed.

(** X4: serving requests, whatever they are, never changes the options,
    the registry, the route table, the context factory or the two
    collaborators; a gate keeps its capacity and no gate appears where
    there was none; and the counter is written by requests to the
    readiness path only. *)
Theorem serve_all_frame (a : app T) (reqs : list Request) :
  opts (serve_all find reqs a) = opts a
  /\ registry (serve_all find reqs a) = registry a
  /\ mux (serve_all find reqs a) = mux a
  /\ cf (serve_all find reqs a) = cf a
  /\ hProm (serve_all find reqs a) = hProm a
  /\ hProf (serve_all find reqs a) = hProf a
  /\ (cc a = None -> cc (serve_all find reqs a) = None)
  /\ (forall ch, cc a = Some ch ->
      exists ch', cc (serve_all find reqs a) = Some ch'
                  /\ chan_cap ch' = chan_cap ch)
  /\ (Forall (fun r => URL_Path r <> readinessPath (opts a)) reqs ->
      readinessFailed (serve_all find reqs a) = readinessFailed a).
Proof.
  destruct (serve_all_state a reqs) as (c & v & -> & Hv & Hn & Hc).
  cbn. repeat split; auto.
Qed.


(** *** The counter over a history of requests *)

Lemma serve_all_failing (a : app T) (reqs : list Request) (v : Z) :
  Forall (fun r =>
            URL_Path r = readinessPath (opts a)
            /\ any_failed (check_results (registry a) (req_ctx r)) = true)
    reqs ->
  Int64.min_int <= v ->
  v + Z.of_nat (length reqs) <= Int64.max_int ->
  serve_all find reqs (set_readinessFailed v a)
  = set_readinessFailed (v + Z.of_nat (length reqs)) a.
Proof.
  revert v. induction reqs as [|r reqs IH]; intros v Hall Hmin Hmax.
  - cbn. rewrite Z.add_0_r. reflexivity.
  - apply Forall_cons in Hall as [[Hp Hf] Hall].
    rewrite serve_all_cons.
    rewrite (readiness_failing_step (set_readinessFailed v a) r Hp Hf).
    change (set_readinessFailed
              (Int64.add (readinessFailed (set_readinessFailed v a)) 1)
              (set_readinessFailed v a))
      with (set_readinessFailed (Int64.add v 1) a).
    cbn [length] in Hmax. rewrite Int64_add_no_overflow by lia.
    rewrite IH by (auto; lia). f_equal. cbn [length]. lia.
Qed.

Lemma cascaded_at_zero (o : options) : cascaded o 0 = false.
Proof.
  unfold cascaded. destruct (Z.ltb_spec 0 (readinessCascade o));
    destruct (Z.ltb_spec (readinessCascade o) 0); try reflexivity; lia.
Qed.

(** X3: [M] failing readiness evaluations in a row add exactly [M] to the
    counter, as long as it stays below the largest [int64]; a liveness
    request (on a path of its own) then answers 500 ["CASCADED"] exactly
    when [readinessCascade > 0] and the counter, [M] when it started at 0,
    is greater than [readinessCascade]. *)
Theorem readiness_failures_accumulate (a : app T) (reqs : list Request)
    (M : nat) (l : Request) :
  length reqs = M ->
  Forall (fun r =>
            URL_Path r = readinessPath (opts a)
            /\ exists name msg,
                 In (name, Some msg) (check_results (registry a) (req_ctx r)))
    reqs ->
  Int64.min_int <= readinessFailed a ->
  readinessFailed a + Z.of_nat M <= Int64.max_int ->
  URL_Path l <> readinessPath (opts a) ->
  URL_Path l = livenessPath (opts a) ->
  readinessFailed (serve_all find reqs a) = readinessFailed a + Z.of_nat M
  /\ serve_all find reqs a
     = set_readinessFailed (readinessFailed a + Z.of_nat M) a
  /\ (snd (ServeHTTP find l (serve_all find reqs a))
      = [EvRespond 500 "CASCADED"]
      <-> 0 < readinessCascade (opts a)
          /\ readinessCascade (opts a) < readinessFailed a + Z.of_nat M)
  /\ (snd (ServeHTTP find l (serve_all find reqs a)) = [EvRespond 200 "OK"]
      <-> ~ (0 < readinessCascade (opts a)
             /\ readinessCascade (opts a) < readinessFailed a + Z.of_nat M)).
Proof.
  intros Hlen Hall Hmin Hmax Hr Hl. subst M.
  assert (Hall' : Forall (fun r =>
            URL_Path r = readinessPath (opts a)
            /\ any_failed (check_results (registry a) (req_ctx r)) = true)
            reqs).
  { eapply Forall_impl; [exact Hall|]. intros r [Hp Hf].
    split; [exact Hp | by apply any_failed_true]. }
  pose proof (serve_all_failing a reqs (readinessFailed a) Hall' Hmin Hmax)
    as Hrun.
  rewrite set_readinessFailed_id in Hrun. rewrite Hrun.
  split; [reflexivity|]. split; [reflexivity|].
  rewrite (liveness_response
             (set_readinessFailed
                (readinessFailed a + Z.of_nat (length reqs)) a) l Hr Hl).
  cbn [snd opts readinessFailed set_readinessFailed].
  rewrite <- cascaded_true.
  destruct (cascaded (opts a) (readinessFailed a + Z.of_nat (length reqs)));
    split; split; try congruence; try discriminate; auto.
Qed.

(** X5: after any history of requests, one readiness evaluation in which
    every check passes puts the counter at 0, and a liveness request (on a
    path of its own) answers 200 ["OK"], whatever the counter held
    before and whatever [readinessCascade] is. *)
Theorem passing_readiness_clears_cascade (a : app T) (reqs : list Request)
    (r l : Request) :
  URL_Path r = readinessPath (opts a) ->
  Forall (fun res => snd res = None) (check_results (registry a) (req_ctx r)) ->
  URL_Path l <> readinessPath (opts a) ->
  URL_Path l = livenessPath (opts a) ->
  readinessFailed (serve_all find (reqs ++ [r]) a) = 0
  /\ ServeHTTP find l (serve_all find (reqs ++ [r]) a)
     = (Returned tt, serve_all find (reqs ++ [r]) a, [EvRespond 200 "OK"]).
Proof.
  intros Hp Hok Hr Hl. rewrite serve_all_app.
  destruct (serve_all_state a reqs) as (c & v & -> & _).
  apply any_failed_false in Hok.
  set (a1 := set_cc c (set_readinessFailed v a)).
  rewrite serve_all_cons. cbn [serve_all fold_left].
  rewrite (readiness_passing_step a1 r Hp Hok).
  split; [reflexivity|].
  rewrite (liveness_response (set_readinessFailed 0 a1) l Hr Hl).
  cbn [readinessFailed set_readinessFailed]. rewrite cascaded_at_zero.
  reflexivity.
Qed.

(** X6: with [readinessCascade <= 0], negative values included, a liveness
    request (on a path of its own) answers 200 ["OK"] after any history of
    requests, however many readiness evaluations failed. *)
Theorem nonpositive_cascade_never_reports (a : app T) (reqs : list Request)
    (l : Request) :
  readinessCascade (opts a) <= 0 ->
  URL_Path l <> readinessPath (opts a) ->
  URL_Path l = livenessPath (opts a) ->
  ServeHTTP find l (serve_all find reqs a)
  = (Returned tt, serve_all find reqs a, [EvRespond 200 "OK"]).
Proof.
  intros Hrc Hr Hl.
  destruct (serve_all_state a reqs) as (c & v & Hrun & _).
  rewrite Hrun.
  rewrite (liveness_response (set_cc c (set_readinessFailed v a)) l Hr Hl).
  unfold cascaded. cbn [opts set_cc set_readinessFailed].
  destruct (Z.ltb_spec 0 (readinessCascade (opts a))); [lia | reflexivity].
Qed.

(** X7: the counter never goes below 0 and never exceeds the number of
    requests served: starting from a counter [c >= 0], after [n] requests
    of any kind it lies between 0 and [c + n] (as long as [c + n] is an
    [int64]). *)
Theorem counter_bounds (a : app T) (reqs : list Request) :
  0 <= readinessFailed a ->
  readinessFailed a + Z.of_nat (length reqs) <= Int64.max_int ->
  0 <= readinessFailed (serve_all find reqs a)
       <= readinessFailed a + Z.of_nat (length reqs).
Proof.
  revert a. induction reqs as [|r reqs IH]; intros a H0 Hmax.
  - cbn. lia.
  - rewrite serve_all_cons. cbn [length] in Hmax |- *.
    destruct (ServeHTTP_state a r) as (c1 & v1 & -> & _ & Hv1 & _).
    assert (Hv : 0 <= v1 <= readinessFailed a + 1).
    { destruct Hv1 as [->|[->| ->]]; try lia.
      rewrite Int64_add_no_overflow; unfold Int64.min_int; lia. }
    specialize (IH (set_cc c1 (set_readinessFailed v1 a))).
    cbn [readinessFailed set_cc set_readinessFailed] in IH.
    assert (0 <= readinessFailed
                   (serve_all find reqs (set_cc c1 (set_readinessFailed v1 a)))
            <= v1 + Z.of_nat (length reqs)) by (apply IH; lia).
    lia.
Qed.


(** *** The application that [New] returns *)

Lemma New_fresh (cf_ : ContextFactory) (options_ : list Option_) :
  exists a0 : app T,
    New_ cf_ options_ = Returned a0
    /\ opts a0 = configured options_
    /\ registry a0 = NewRegistry
    /\ cf a0 = cf_
    /\ mux a0 = []
    /\ hProm a0 = promhttp_Handler
    /\ hProf a0 = pprof_mux
    /\ readinessFailed a0 = 0
    /\ cc a0 = if 0 <? concurrency (configured options_)
               then Some {| chan_cap := concurrency (configured options_);
                            chan_len := concurrency (configured options_) |}
               else None.
Proof.
  unfold New. destruct (Z.ltb_spec 0 (concurrency (configured options_))).
  - unfold make_chan. rewrite fill_spec by lia.
    rewrite Z2Nat.id, Z.add_0_l by lia.
    eexists. split; [reflexivity|]. cbn. repeat split.
  - eexists. split; [reflexivity|]. cbn. repeat split.
Qed.

(** X1: [New] returns for every factory and every list of options: the
    loop that fills the gate never parks.  The application it returns has
    the options as configured, the counter at 0, an empty route table, and
    a gate exactly when the configured concurrency is positive; with no
    option given the gate holds the 128 permits of the default and
    [readinessCascade] is 5. *)
Theorem New_returns (cf_ : ContextFactory) (options_ : list Option_) :
  exists a0 : app T,
    New_ cf_ options_ = Returned a0
    /\ opts a0 = configured options_
    /\ cf a0 = cf_
    /\ mux a0 = []
    /\ readinessFailed a0 = 0
    /\ (cc a0 = None <-> concurrency (configured options_) <= 0)
    /\ (forall ch, cc a0 = Some ch ->
        chan_cap ch = concurrency (configured options_)
        /\ chan_len ch = concurrency (configured options_))
    /\ (options_ = [] ->
        cc a0 = Some {| chan_cap := 128; chan_len := 128 |}
        /\ readinessCascade (opts a0) = 5
        /\ readinessPath (opts a0) = DefaultReadinessPath
        /\ livenessPath (opts a0) = DefaultLivenessPath
        /\ metricsPath (opts a0) = DefaultMetricsPath).
Proof.
  destruct (New_fresh cf_ options_)
    as (a0 & HNew & Hopts & _ & Hcf & Hmux & _ & _ & Hcount & Hcc).
  exists a0. repeat split; auto.
  - intros Hnone. rewrite Hnone in Hcc.
    destruct (Z.ltb_spec 0 (concurrency (configured options_)));
      [discriminate | lia].
  - intros Hle. rewrite Hcc.
    destruct (Z.ltb_spec 0 (concurrency (configured options_)));
      [lia | reflexivity].
  - rewrite Hcc in H.
    destruct (0 <? concurrency (configured options_)); [|discriminate].
    injection H as <-. reflexivity.
  - rewrite Hcc in H.
    destruct (0 <? concurrency (configured options_)); [|discriminate].
    injection H as <-. reflexivity.
  - subst options_. rewrite Hcc. reflexivity.
  - subst options_. rewrite Hopts. reflexivity.
  - subst options_. rewrite Hopts. reflexivity.
  - subst options_. rewrite Hopts. reflexivity.
  - subst options_. rewrite Hopts. reflexivity.
Qed.

(** X2: the options are applied in the order they are given, each to the
    result of the ones before it: the application built from
    [options1 ++ options2] has the options of the one built from [options1]
    with [options2] applied on top, so a later option overrides an earlier
    one. *)
Theorem New_applies_options_in_order (cf_ : ContextFactory)
    (options1 options2 : list Option_) :
  exists a1 a2 : app T,
    New_ cf_ options1 = Returned a1
    /\ New_ cf_ (options1 ++ options2) = Returned a2
    /\ opts a2 = fold_left (fun o opt => opt o) options2 (opts a1)
    /\ (forall opt : Option_,
          options2 = [opt] -> opts a2 = opt (opts a1)).
Proof.
  destruct (New_fresh cf_ options1) as (a1 & HNew1 & Hopts1 & _).
  destruct (New_fresh cf_ (options1 ++ options2)) as (a2 & HNew2 & Hopts2 & _).
  exists a1, a2. split; [exact HNew1|]. split; [exact HNew2|].
  assert (Hfold : opts a2 = fold_left (fun o opt => opt o) options2 (opts a1)).
  { rewrite Hopts2, Hopts1. unfold apply_options. apply fold_left_app. }
  split; [exact Hfold|]. intros opt ->. exact Hfold.
Qed.


(** *** How many requests are inside the handler *)

Lemma handlers_running_le_held (ts : list task) :
  handlers_hold ts -> 0 <= handlers_running ts <= permits_held ts.
Proof.
  unfold handlers_hold. induction ts as [|t ts IH]; intros Hall.
  - cbn. lia.
  - apply Forall_cons in Hall as [Ht Hall]. specialize (IH Hall).
    cbn [handlers_running permits_held].
    destruct (in_handler t); [rewrite (Ht eq_refl) | destruct (holds_permit t)];
      lia.
Qed.

Lemma task_step_handlers_hold (a a' : app T) (t t' : task)
    (log : list (event T)) (ch : chan) :
  task_step find a t = Some (a', t', log) ->
  cc a = Some ch ->
  (in_handler t = true -> holds_permit t = true) ->
  in_handler t' = true -> holds_permit t' = true.
Proof.
  intros Hstep Hcc Ht.
  destruct t as [req|req held|held|r [|]|r]; cbn [task_step] in Hstep;
    try discriminate.
  - destruct (app_route a req).
    + rewrite Hcc in Hstep. destruct (recv_cc a) as [[[[]| |] a1] log1];
        try discriminate. injection Hstep as <- <- <-. reflexivity.
    + destruct (ServeHTTP find req a) as [[r a1] log1].
      injection Hstep as <- <- <-. discriminate.
  - rewrite hMain_run in Hstep. cbn in Ht.
    destruct (main_result find a req) as [[]| |];
      injection Hstep as <- <- <-; cbn; auto; discriminate.
  - destruct (send_cc a) as [[[[]| |] a1] log1]; try discriminate.
    injection Hstep as <- <- <-. discriminate.
  - injection Hstep as <- <- <-. discriminate.
Qed.

Lemma sys_step_handlers_hold (n : Z) (s : system T) (act : action) :
  gate_inv n s /\ handlers_hold (sys_tasks s) ->
  gate_inv n (sys_step find s act)
  /\ handlers_hold (sys_tasks (sys_step find s act)).
Proof.
  intros [Hinv Hall]. split; [by apply sys_step_gate_inv|].
  destruct Hinv as (ch & Hcc & _). unfold handlers_hold in *.
  destruct act as [req|i]; cbn [sys_step sys_tasks].
  - apply Forall_app. split; [exact Hall|]. repeat constructor. discriminate.
  - destruct (sys_tasks s !! i) as [t|] eqn:Hi; [|exact Hall].
    destruct (task_step find (sys_app s) t) as [[[a' t'] log]|] eqn:Hstep;
      [|exact Hall].
    cbn [sys_tasks]. apply Forall_insert; [exact Hall|].
    eapply task_step_handlers_hold; eauto.
    eapply (proj1 (Forall_lookup _ _) Hall); eauto.
Qed.

Lemma sys_run_gated (a : app T) (n : Z) (schedule : list action) :
  0 <= n ->
  cc a = Some {| chan_cap := n; chan_len := n |} ->
  gate_inv n (sys_run find (sys_init a) schedule)
  /\ handlers_hold (sys_tasks (sys_run find (sys_init a) schedule)).
Proof.
  intros Hn Hcc.
  apply (sys_run_invariant
           (fun s => gate_inv n s /\ handlers_hold (sys_tasks s))).
  - intros s act. apply sys_step_handlers_hold.
  - split; [by apply sys_init_gate_inv | constructor].
Qed.

Lemma task_step_opts (a a' : app T) (t t' : task) (log : list (event T)) :
  task_step find a t = Some (a', t', log) -> opts a' = opts a.
Proof.
  intros Hstep.
  destruct t as [r|r held|held|r [|]|r]; cbn [task_step] in Hstep;
    try discriminate.
  - destruct (app_route a r).
    + destruct (cc a) as [ch|] eqn:Hc.
      * unfold recv_cc in Hstep. rewrite Hc in Hstep.
        destruct (chan_recv ch); [|discriminate].
        injection Hstep as <- <- <-. reflexivity.
      * injection Hstep as <- <- <-. reflexivity.
    + destruct (ServeHTTP_state a r) as (c & v & Hst & _).
      destruct (ServeHTTP find r a) as [[r0 a1] log1].
      injection Hstep as <- <- <-. cbn in Hst. rewrite Hst. reflexivity.
  - rewrite hMain_run in Hstep.
    destruct (main_result find a r) as [[]| |];
      injection Hstep as <- <- <-; reflexivity.
  - unfold send_cc in Hstep. destruct (cc a) as [ch|]; [|discriminate].
    destruct (chan_send ch); [|discriminate].
    injection Hstep as <- <- <-. reflexivity.
  - injection Hstep as <- <- <-. reflexivity.
Qed.

Lemma sys_run_opts (a : app T) (schedule : list action) :
  opts (sys_app (sys_run find (sys_init a) schedule)) = opts a.
Proof.
  apply (sys_run_invariant (fun s => opts (sys_app s) = opts a));
    [|reflexivity].
  intros s act Hs. destruct act as [r|i]; [exact Hs|].
  cbn [sys_step]. destruct (sys_tasks s !! i) as [t|]; [|exact Hs].
  destruct (task_step find (sys_app s) t) as [[[a' t'] log]|] eqn:Hstep;
    [|exact Hs].
  cbn [sys_app]. rewrite <- Hs. by eapply task_step_opts.
Qed.

Lemma app_route_opts (a1 a2 : app T) (req : Request) :
  opts a1 = opts a2 -> app_route a1 req = app_route a2 req.
Proof. intros Ho. unfold app_route. rewrite Ho. reflexivity. Qed.

(** X8: with a gate of [n] permits, under any interleaving of any
    requests at most [n] requests are inside [a.hMain] at the same time.
    A request that enters the application route parks at the gate when no
    permit is left, and takes one permit and goes on when there is one; no
    permit is left exactly when [n] requests hold one. *)
Theorem gate_bounds_running_handlers (a : app T) (n : Z)
    (schedule : list action) (req : Request) :
  0 <= n ->
  cc a = Some {| chan_cap := n; chan_len := n |} ->
  app_route a req = true ->
  handlers_running (sys_tasks (sys_run find (sys_init a) schedule)) <= n
  /\ (permits_available (sys_app (sys_run find (sys_init a) schedule)) = 0
      <-> permits_held (sys_tasks (sys_run find (sys_init a) schedule)) = n)
  /\ (permits_available (sys_app (sys_run find (sys_init a) schedule)) = 0 ->
      task_step find (sys_app (sys_run find (sys_init a) schedule))
        (TEntry req) = None)
  /\ (0 < permits_available (sys_app (sys_run find (sys_init a) schedule)) ->
      exists a',
        task_step find (sys_app (sys_run find (sys_init a) schedule))
          (TEntry req)
        = Some (a', TServing req true, [EvAcquire])
        /\ permits_available a'
           = permits_available
               (sys_app (sys_run find (sys_init a) schedule)) - 1).
Proof.
  intros Hn Hcc Hroute.
  destruct (sys_run_gated a n schedule Hn Hcc) as [Hinv Hall].
  pose proof (handlers_running_le_held _ Hall) as Hrun.
  destruct (gate_inv_count _ _ Hinv) as (Hsum & Hav & Hheld).
  rewrite <- (app_route_opts _ a req (sys_run_opts a schedule)) in Hroute.
  set (s := sys_run find (sys_init a) schedule) in *.
  split; [lia|]. split; [lia|].
  destruct Hinv as (ch & Hs & Hcap & Hlen & _).
  unfold permits_available in *. rewrite Hs in *.
  cbn [task_step]. rewrite Hroute, Hs. unfold recv_cc, chan_recv. rewrite Hs.
  split.
  - intros H0. destruct (Z.ltb_spec 0 (chan_len ch)); [lia | reflexivity].
  - intros Hpos. destruct (Z.ltb_spec 0 (chan_len ch)); [|lia].
    eexists. split; [reflexivity|]. reflexivity.
Qed.

(** X9: a request parked at the gate gets in as soon as another
    request gives its permit back: whatever the interleaving so far, once
    a request whose handler is over runs its deferred release, a request
    waiting at the top of the application route takes that permit and
    enters [a.hMain]. *)
Theorem release_lets_waiting_request_in (a : app T) (n : Z)
    (schedule : list action) (i j : nat) (req : Request) (r : result unit) :
  0 <= n ->
  cc a = Some {| chan_cap := n; chan_len := n |} ->
  app_route a req = true ->
  i <> j ->
  sys_tasks (sys_run find (sys_init a) schedule) !! i = Some (TEntry req) ->
  sys_tasks (sys_run find (sys_init a) schedule) !! j
  = Some (TExiting r true) ->
  sys_tasks (sys_run find (sys_init a) (schedule ++ [Run j; Run i])) !! j
  = Some (TDone r)
  /\ sys_tasks (sys_run find (sys_init a) (schedule ++ [Run j; Run i])) !! i
     = Some (TServing req true)
  /\ permits_available
       (sys_app (sys_run find (sys_init a) (schedule ++ [Run j; Run i])))
     = permits_available (sys_app (sys_run find (sys_init a) schedule)).
Proof.
  intros Hn Hcc Hroute Hij Hi Hj.
  destruct (sys_run_gated a n schedule Hn Hcc) as [Hinv _].
  rewrite <- (app_route_opts _ a req (sys_run_opts a schedule)) in Hroute.
  unfold sys_run in *. rewrite fold_left_app.
  set (s := fold_left (sys_step find) schedule (sys_init a)) in *.
  destruct Hinv as (ch & Hs & Hcap & Hlen & Hsum).
  destruct (permits_held_lookup _ _ _ Hj) as [_ Hle]. cbn in Hle.
  cbn [fold_left].
  assert (H1 : sys_step find s (Run j)
               = {| sys_app := set_cc (Some {| chan_cap := chan_cap ch;
                                               chan_len := chan_len ch + 1 |})
                                 (sys_app s);
                    sys_tasks := <[j := TDone r]> (sys_tasks s);
                    sys_log := sys_log s ++ map (pair j) [EvRelease] |}).
  { cbn [sys_step]. rewrite Hj. cbn [task_step]. unfold send_cc, chan_send.
    rewrite Hs. destruct (Z.ltb_spec (chan_len ch) (chan_cap ch)); [|lia].
    reflexivity. }
  rewrite H1. cbn [sys_step sys_app sys_tasks].
  rewrite list_lookup_insert_ne by done. rewrite Hi.
  cbn [task_step].
  change (app_route (set_cc (Some {| chan_cap := chan_cap ch;
                                     chan_len := chan_len ch + 1 |})
                       (sys_app s)) req)
    with (app_route (sys_app s) req).
  rewrite Hroute. cbn [cc set_cc]. unfold recv_cc, chan_recv.
  cbn [cc set_cc chan_len chan_cap].
  destruct (Z.ltb_spec 0 (chan_len ch + 1)); [|lia].
  cbn [sys_tasks sys_app].
  pose proof (lookup_lt_Some _ _ _ Hi) as Hli.
  pose proof (lookup_lt_Some _ _ _ Hj) as Hlj.
  split; [|split].
  - rewrite list_lookup_insert_ne by done.
    apply list_lookup_insert_eq. exact Hlj.
  - apply list_lookup_insert_eq. rewrite length_insert. exact Hli.
  - unfold permits_available. cbn [cc set_cc chan_len]. rewrite Hs. lia.
Qed.


(** *** Requests that reach no handler, handlers that never return *)

Lemma main_run_unmatched (a : app T) (req : Request) :
  find (map fst (mux a)) req = None ->
  main_result find a req = Returned tt
  /\ main_log find a req = [EvNotFound (URL_Path req)].
Proof.
  intros Hfind. unfold main_result, main_log, hMain. rewrite Hfind.
  split; reflexivity.
Qed.

(** X10: a request on the application route for which the mux selects no
    route goes through the gate like any other: it parks when no permit is
    left, and otherwise takes a permit, gets the answer of the mux itself
    and gives the permit back; no context is built for it. *)
Theorem unmatched_request_passes_gate (a : app T) (req : Request) :
  app_route a req = true ->
  find (map fst (mux a)) req = None ->
  (forall ch : chan,
     cc a = Some ch ->
     0 < chan_len ch <= chan_cap ch ->
     ServeHTTP find req a
     = (Returned tt, a, [EvAcquire; EvNotFound (URL_Path req); EvRelease]))
  /\ (forall ch : chan,
        cc a = Some ch ->
        chan_len ch <= 0 ->
        ServeHTTP find req a = (Blocked, a, []))
  /\ (cc a = None ->
      ServeHTTP find req a = (Returned tt, a, [EvNotFound (URL_Path req)])).
Proof.
  intros Hroute Hfind.
  destruct (main_run_unmatched a req Hfind) as [Hres Hlog].
  split; [|split].
  - intros ch Hcc Hlen.
    rewrite (ServeHTTP_gated a req ch Hroute Hcc Hlen) by congruence.
    rewrite Hres, Hlog. reflexivity.
  - intros ch Hcc Hlen. by eapply ServeHTTP_gate_exhausted.
  - intros Hcc. rewrite (ServeHTTP_ungated a req Hroute Hcc), Hres, Hlog.
    reflexivity.
Qed.

(** X11: when the handler of a route never ends, neither returning nor
    unwinding by a panic or [runtime.Goexit] (its goroutine stays parked
    inside the handler), the request keeps its permit: the gate, read
    back after the call, is one permit short, [Perform] does not run and
    nothing is released. *)
Theorem parked_handler_keeps_permit (a : app T) (req : Request)
    (pattern : string) (fn : HandlerFunc T) (ch : chan) :
  app_route a req = true ->
  find (map fst (mux a)) req = Some pattern ->
  route_of (mux a) pattern = Some fn ->
  fn (cf a req) = Blocked ->
  cc a = Some ch ->
  0 < chan_len ch ->
  ServeHTTP find req a
  = (Blocked,
     set_cc (Some {| chan_cap := chan_cap ch; chan_len := chan_len ch - 1 |}) a,
     [EvAcquire; EvFactory (cf a req); EvDefer (cf a req);
      EvInject (cf a req); EvInvoke pattern (cf a req)])
  /\ cc (snd (fst (ServeHTTP find req a)))
     = Some {| chan_cap := chan_cap ch; chan_len := chan_len ch - 1 |}
  /\ permits_available (snd (fst (ServeHTTP find req a)))
     = permits_available a - 1.
Proof.
  intros Hroute Hfind Hfn Hres Hcc Hlen.
  assert (Hmain : main_result find a req = Blocked
                  /\ main_log find a req = lifecycle_prefix pattern (cf a req)).
  { unfold main_result, main_log, hMain.
    rewrite Hfind, Hfn, route_handler_run, Hres. split; reflexivity. }
  destruct Hmain as [Hr Hlog].
  rewrite (ServeHTTP_gated_parked a req ch Hroute Hcc Hlen Hr), Hlog.
  split; [reflexivity|]. split; [reflexivity|].
  unfold permits_available. cbn [fst snd cc set_cc chan_len]. rewrite Hcc.
  reflexivity.
Qed.

(** *** Registration of routes *)

Lemma route_of_app_l (m : ServeMux T) (pattern p : string)
    (fn fn0 : HandlerFunc T) :
  route_of m p = Some fn0 ->
  route_of (m ++ [(pattern, fn)]) p = Some fn0.
Proof.
  induction m as [|[q f] m IH]; cbn [route_of Datatypes.app];
    [discriminate|].
  destruct (String.eqb q p); [auto | exact IH].
Qed.

Lemma route_of_app_ne (m : ServeMux T) (pattern p : string)
    (fn : HandlerFunc T) :
  p <> pattern ->
  route_of (m ++ [(pattern, fn)]) p = route_of m p.
Proof.
  intros Hne. induction m as [|[q f] m IH]; cbn [route_of Datatypes.app].
  - destruct (String.eqb_spec pattern p); [congruence | reflexivity].
  - destruct (String.eqb q p); [reflexivity | exact IH].
Qed.

(** X12: [HandleFunc] with a pattern that the mux refuses panics and
    leaves the application as it was.  With a pattern that the mux
    accepts it returns, changes nothing but the route table, keeps every
    route registered before, and maps a pattern that was not registered to
    the new handler. *)
Theorem HandleFunc_effects (accepts : list string -> string -> bool)
    (a : app T) (pattern : string) (fn : HandlerFunc T) :
  (accepts (map fst (mux a)) pattern = false ->
   HandleFunc accepts pattern fn a = (Panicked, a, []))
  /\ (accepts (map fst (mux a)) pattern = true ->
      HandleFunc accepts pattern fn a
      = (Returned tt, set_mux (mux a ++ [(pattern, fn)]) a, [])
      /\ cc (snd (fst (HandleFunc accepts pattern fn a))) = cc a
      /\ readinessFailed (snd (fst (HandleFunc accepts pattern fn a)))
         = readinessFailed a
      /\ opts (snd (fst (HandleFunc accepts pattern fn a))) = opts a
      /\ registry (snd (fst (HandleFunc accepts pattern fn a))) = registry a
      /\ (forall p fn0,
            route_of (mux a) p = Some fn0 ->
            route_of (mux (snd (fst (HandleFunc accepts pattern fn a)))) p
            = Some fn0)
      /\ (forall p,
            p <> pattern ->
            route_of (mux (snd (fst (HandleFunc accepts pattern fn a)))) p
            = route_of (mux a) p)
      /\ (route_of (mux a) pattern = None ->
          route_of (mux (snd (fst (HandleFunc accepts pattern fn a)))) pattern
          = Some fn)).
Proof.
  unfold HandleFunc. rewrite bind_get. unfold ServeMux_Handle.
  split; intros Hacc; rewrite Hacc; [reflexivity|].
  cbn. repeat split.
  - intros p fn0. apply route_of_app_l.
  - intros p. apply route_of_app_ne.
  - apply route_of_app.
Qed.

(** X13: a handler registered with [HandleFunc] is the one that serves the
    requests the mux gives to its pattern: after the registration, such a
    request on the application route runs the lifecycle around that
    handler, inside the gate when there is one. *)
Theorem HandleFunc_then_ServeHTTP (accepts : list string -> string -> bool)
    (a : app T) (pattern : string) (fn : HandlerFunc T) (req : Request) :
  accepts (map fst (mux a)) pattern = true ->
  route_of (mux a) pattern = None ->
  app_route a req = true ->
  find (map fst (mux a ++ [(pattern, fn)])) req = Some pattern ->
  fn (cf a req) <> Blocked ->
  exists a',
    HandleFunc accepts pattern fn a = (Returned tt, a', [])
    /\ (forall ch : chan,
          cc a = Some ch ->
          0 < chan_len ch <= chan_cap ch ->
          ServeHTTP find req a'
          = (fn (cf a req), a',
             [EvAcquire; EvFactory (cf a req); EvDefer (cf a req);
              EvInject (cf a req); EvInvoke pattern (cf a req);
              EvPerform (cf a req); EvRelease]))
    /\ (cc a = None ->
        ServeHTTP find req a'
        = (fn (cf a req), a',
           [EvFactory (cf a req); EvDefer (cf a req);
            EvInject (cf a req); EvInvoke pattern (cf a req);
            EvPerform (cf a req)])).
Proof.
  intros Hacc Hnew Hroute Hfind Hres.
  exists (set_mux (mux a ++ [(pattern, fn)]) a).
  split.
  { unfold HandleFunc. rewrite bind_get. unfold ServeMux_Handle.
    rewrite Hacc. reflexivity. }
  set (a' := set_mux (mux a ++ [(pattern, fn)]) a).
  assert (Hfn : route_of (mux a') pattern = Some fn)
    by (by apply route_of_app).
  destruct (main_run_route a' req pattern fn Hfind Hfn Hres) as [Hr Hlog].
  split.
  - intros ch Hcc Hlen.
    rewrite (ServeHTTP_gated a' req ch Hroute Hcc Hlen)
      by (rewrite Hr; exact Hres).
    rewrite Hr, Hlog. reflexivity.
  - intros Hcc. rewrite (ServeHTTP_ungated a' req Hroute Hcc), Hr, Hlog.
    reflexivity.
Qed.

(** *** The diagnostic prefix *)

Lemma HasPrefix_append (prefix rest : string) :
  HasPrefix (prefix +:+ rest) prefix = true.
Proof.
  induction prefix as [|c prefix IH];
    [rewrite append_nil_l; destruct rest; reflexivity|].
  rewrite append_cons. cbn [HasPrefix]. rewrite Ascii.eqb_refl. exact IH.
Qed.

Lemma HasPrefix_inv (s prefix : string) :
  HasPrefix s prefix = true -> exists rest, s = prefix +:+ rest.
Proof.
  revert s. induction prefix as [|c prefix IH]; intros s H.
  - exists s. reflexivity.
  - destruct s as [|d s]; [discriminate|]. cbn [HasPrefix] in H.
    destruct (Ascii.eqb_spec d c) as [->|]; [|discriminate].
    destruct (IH s H) as [rest ->]. exists rest. reflexivity.
Qed.

(** X14: a request whose path is not one of the three reserved paths is
    given to the profiler exactly when its path is ["/debug/"] followed by
    anything.  The five patterns that [New] registers on the profiler are
    of that form; the path ["/debug"] itself is not and goes to the
    application route. *)
Theorem debug_paths_reach_profiler (a : app T) (req : Request) :
  URL_Path req <> readinessPath (opts a) ->
  URL_Path req <> livenessPath (opts a) ->
  URL_Path req <> metricsPath (opts a) ->
  ((exists rest, URL_Path req = "/debug/" +:+ rest) ->
   ServeHTTP find req a = (hProf a req, a, [EvProf (URL_Path req)]))
  /\ (In (URL_Path req) pprof_patterns ->
      ServeHTTP find req a = (hProf a req, a, [EvProf (URL_Path req)]))
  /\ (~ (exists rest, URL_Path req = "/debug/" +:+ rest) ->
      app_route a req = true)
  /\ (URL_Path req = "/debug" -> app_route a req = true).
Proof.
  intros Hr Hl Hm.
  assert (Hdiag : HasPrefix (URL_Path req) "/debug/" = true ->
                  ServeHTTP find req a = (hProf a req, a, [EvProf (URL_Path req)])).
  { intros Hd. rewrite (ServeHTTP_diagnostic a req Hr Hl Hm Hd). reflexivity. }
  split; [|split; [|split]].
  - intros [rest Hp]. apply Hdiag. rewrite Hp. apply HasPrefix_append.
  - intros Hin. apply Hdiag. cbn in Hin.
    destruct Hin as [<-|[<-|[<-|[<-|[<-|[]]]]]]; reflexivity.
  - intros Hno. apply app_route_spec. repeat split; auto.
    destruct (HasPrefix (URL_Path req) "/debug/") eqn:Hd; [|reflexivity].
    exfalso. apply Hno. by apply HasPrefix_inv.
  - intros Hp. apply app_route_spec. repeat split; auto.
    rewrite Hp. reflexivity.
Qed.

End Properties.

(** ** The theorems at concrete configurations *)

Lemma ServeHTTP_readiness_counter_demo :
  exists status body,
    ServeHTTP Sample.find_exact Sample.ready_bad Sample.demo_app
    = (Returned tt, set_readinessFailed 1 Sample.demo_app,
       [EvCheck "cache" None; EvCheck "db" (Some "db: timeout");
        EvRespond status body])
    /\ status = 500
    /\ readinessFailed Sample.demo_app = 0
    /\ readinessFailed
         (snd (fst (ServeHTTP Sample.find_exact Sample.ready_bad
                      Sample.demo_app))) = 1.
Proof.
  destruct (ServeHTTP_readiness_counter Sample.find_exact Sample.demo_app
              Sample.ready_bad eq_refl)
    as (status & body & counter & Hrun & Hread & _ & _ & Hfail & _).
  destruct Hfail as (Hs & Hc & _).
  - exists "db", "db: timeout". right. left. reflexivity.
  - exists status, body. rewrite Hread. subst counter.
    split; [exact Hrun|]. split; [exact Hs|]. split; reflexivity.
Defined.

Lemma ServeHTTP_readiness_body_demo :
  ServeHTTP Sample.find_exact Sample.ready_bad Sample.demo_app
  = (Returned tt, set_readinessFailed 1 Sample.demo_app,
     [EvCheck "cache" None; EvCheck "db" (Some "db: timeout");
      EvRespond 500 ("cache: OK" +:+ newline +:+ "db: db: timeout")]).
Proof.
  exact (proj2 (proj2 (ServeHTTP_readiness_body Sample.find_exact
                         Sample.demo_app Sample.ready_bad eq_refl))
           "cache" "db" _ _ eq_refl eq_refl eq_refl).
Defined.

Lemma ServeHTTP_liveness_cascade_demo :
  snd (ServeHTTP Sample.find_exact Sample.alive
         (serve_all Sample.find_exact [Sample.ready_bad; Sample.ready_bad]
            Sample.demo_app))
  = [EvRespond 200 "OK"]
  /\ snd (ServeHTTP Sample.find_exact Sample.alive
            (serve_all Sample.find_exact
               [Sample.ready_bad; Sample.ready_bad; Sample.alive;
                Sample.ready_bad]
               Sample.demo_app))
     = [EvRespond 500 "CASCADED"].
Proof.
  apply (ServeHTTP_liveness_cascade Sample.find_exact Sample.demo_app
           Sample.alive);
    [discriminate | reflexivity | reflexivity | reflexivity |].
  repeat constructor; exists "db", "db: timeout"; right; left; reflexivity.
Defined.

Lemma ServeHTTP_liveness_pure_read_demo :
  readinessFailed
    (snd (fst (ServeHTTP Sample.find_exact Sample.alive
                 (set_readinessFailed 3 Sample.demo_app)))) = 3
  /\ filter (fun e => check_event e = true)
       (snd (ServeHTTP Sample.find_exact Sample.alive
               (set_readinessFailed 3 Sample.demo_app))) = [].
Proof.
  destruct (ServeHTTP_liveness_pure_read Sample.find_exact
              (set_readinessFailed 3 Sample.demo_app) Sample.alive)
    as (_ & Hlog & Hcounter & _); [discriminate | reflexivity |].
  split; [exact Hcounter | exact Hlog].
Defined.

Lemma readiness_reset_idempotent_demo :
  readinessFailed
    (serve_all Sample.find_exact [Sample.ready_ok; Sample.ready_ok]
       (set_readinessFailed 7 Sample.demo_app)) = 0.
Proof.
  apply (readiness_reset_idempotent Sample.find_exact
           (set_readinessFailed 7 Sample.demo_app)
           [Sample.ready_ok; Sample.ready_ok] 2);
    [reflexivity | lia |].
  repeat constructor.
Defined.

Lemma gate_permits_conserved_demo :
  exists a0,
    Sample.new_app [Sample.with_concurrency 2] = Returned a0
    /\ cc a0 = Some {| chan_cap := 2; chan_len := 2 |}
    /\ permits_available
         (sys_app
            (sys_run Sample.find_exact (sys_init a0)
               [Arrive Sample.hello; Arrive Sample.boom; Run 0; Run 1;
                Run 1; Run 1]))
       + permits_held
           (sys_tasks
              (sys_run Sample.find_exact (sys_init a0)
                 [Arrive Sample.hello; Arrive Sample.boom; Run 0; Run 1;
                  Run 1; Run 1]))
       = 2.
Proof.
  destruct (gate_permits_conserved (T := nat) Sample.find_exact
              "/readiness" "/liveness" "/metrics" Sample.served Sample.served
              req_ctx [Sample.with_concurrency 2])
    as (a0 & HNew & Hcc & _ & Hsys); [reflexivity|].
  exists a0. split; [exact HNew|]. split; [exact Hcc|].
  exact (proj1 (Hsys a0 _ eq_refl)).
Defined.

Lemma nonpositive_concurrency_disables_gate_demo :
  exists a0,
    Sample.new_app [Sample.with_concurrency (-3)] = Returned a0
    /\ cc a0 = None.
Proof.
  destruct (nonpositive_concurrency_disables_gate (T := nat) Sample.find_exact
              "/readiness" "/liveness" "/metrics" Sample.served Sample.served
              req_ctx [Sample.with_concurrency (-3)])
    as (a0 & HNew & Hcc & _); [vm_compute; discriminate|].
  exists a0. split; [exact HNew | exact Hcc].
Defined.


Lemma reserved_paths_bypass_gate_demo :
  ServeHTTP Sample.find_exact Sample.metrics
    (set_cc (Some {| chan_cap := 2; chan_len := 0 |}) Sample.demo_app)
  = (Returned tt,
     set_cc (Some {| chan_cap := 2; chan_len := 0 |}) Sample.demo_app,
     [EvProm "/metrics"]).
Proof.
  refine (proj1 (proj2 (proj2 (reserved_paths_bypass_gate Sample.find_exact
                                 Sample.demo_app Sample.metrics _))) _).
  right. right. left. reflexivity.
Defined.

(** ** Requests to a path shared by readiness and liveness *)

(** C3, as stated, fails when the liveness path is also the readiness
    path: the counter is 0 and the cascade rule does not fire, yet the
    response to a request to the liveness path is neither 200 ["OK"] nor
    500 ["CASCADED"] but the readiness report with status 500. *)
Lemma liveness_response_on_shared_path :
  URL_Path Sample.health = livenessPath (opts Sample.shared_path_app)
  /\ cascaded (opts Sample.shared_path_app)
       (readinessFailed Sample.shared_path_app) = false
  /\ snd (ServeHTTP Sample.find_exact Sample.health Sample.shared_path_app)
     = [EvCheck "db" (Some "down"); EvRespond 500 "db: down"]
  /\ ~ In (EvRespond 200 "OK")
         (snd (ServeHTTP Sample.find_exact Sample.health
                 Sample.shared_path_app))
  /\ ~ In (EvRespond 500 "CASCADED")
         (snd (ServeHTTP Sample.find_exact Sample.health
                 Sample.shared_path_app)).
Proof.
  repeat split; try reflexivity.
  all: cbn; intros [H|[H|[]]]; discriminate H.
Qed.

(** C8, as stated, fails when the liveness path is also the readiness
    path: a request to the liveness path runs the registered check and
    moves the counter from 0 to 1. *)
Lemma liveness_runs_checks_on_shared_path :
  URL_Path Sample.health = livenessPath (opts Sample.shared_path_app)
  /\ filter (fun e => check_event e = true)
       (snd (ServeHTTP Sample.find_exact Sample.health
               Sample.shared_path_app))
     = [EvCheck "db" (Some "down")]
  /\ readinessFailed Sample.shared_path_app = 0
  /\ readinessFailed
       (snd (fst (ServeHTTP Sample.find_exact Sample.health
                    Sample.shared_path_app))) = 1.
Proof. repeat split; reflexivity. Qed.

(** ** Further theorems at concrete configurations *)

Lemma readiness_failures_accumulate_demo :
  readinessFailed
    (serve_all Sample.find_exact
       [Sample.ready_bad; Sample.ready_bad; Sample.ready_bad] Sample.demo_app)
  = 3
  /\ snd (ServeHTTP Sample.find_exact Sample.alive
            (serve_all Sample.find_exact
               [Sample.ready_bad; Sample.ready_bad; Sample.ready_bad]
               Sample.demo_app))
     = [EvRespond 500 "CASCADED"].
Proof.
  destruct (readiness_failures_accumulate Sample.find_exact Sample.demo_app
              [Sample.ready_bad; Sample.ready_bad; Sample.ready_bad] 3
              Sample.alive)
    as (Hcount & _ & Hcasc & _).
  - reflexivity.
  - repeat constructor; exists "db", "db: timeout"; right; left; reflexivity.
  - unfold Int64.min_int. simpl. lia.
  - unfold Int64.max_int. simpl. lia.
  - discriminate.
  - reflexivity.
  - split; [exact Hcount|]. apply Hcasc. simpl. lia.
Defined.

Lemma passing_readiness_clears_cascade_demo :
  ServeHTTP Sample.find_exact Sample.alive
    (serve_all Sample.find_exact
       ([Sample.ready_bad; Sample.ready_bad; Sample.ready_bad]
        ++ [Sample.ready_ok]) Sample.demo_app)
  = (Returned tt,
     serve_all Sample.find_exact
       ([Sample.ready_bad; Sample.ready_bad; Sample.ready_bad]
        ++ [Sample.ready_ok]) Sample.demo_app,
     [EvRespond 200 "OK"]).
Proof.
  refine (proj2 (passing_readiness_clears_cascade Sample.find_exact
                   Sample.demo_app
                   [Sample.ready_bad; Sample.ready_bad; Sample.ready_bad]
                   Sample.ready_ok Sample.alive eq_refl _ _ eq_refl)).
  - repeat constructor.
  - discriminate.
Defined.

Lemma nonpositive_cascade_never_reports_demo :
  ServeHTTP Sample.find_exact Sample.alive
    (serve_all Sample.find_exact
       [Sample.ready_bad; Sample.ready_bad; Sample.ready_bad]
       Sample.no_cascade_app)
  = (Returned tt,
     serve_all Sample.find_exact
       [Sample.ready_bad; Sample.ready_bad; Sample.ready_bad]
       Sample.no_cascade_app,
     [EvRespond 200 "OK"]).
Proof.
  apply (nonpositive_cascade_never_reports Sample.find_exact
           Sample.no_cascade_app);
    [simpl; lia | discriminate | reflexivity].
Defined.

Lemma counter_bounds_demo :
  0 <= readinessFailed
         (serve_all Sample.find_exact
            [Sample.ready_bad; Sample.hello; Sample.ready_ok; Sample.ready_bad]
            Sample.demo_app)
    <= 0 + Z.of_nat 4.
Proof.
  apply (counter_bounds Sample.find_exact Sample.demo_app
           [Sample.ready_bad; Sample.hello; Sample.ready_ok; Sample.ready_bad]);
    [simpl; lia | unfold Int64.max_int; simpl; lia].
Defined.

Lemma gate_bounds_running_handlers_demo :
  handlers_running
    (sys_tasks
       (sys_run Sample.find_exact (sys_init Sample.single_permit_app)
          [Arrive Sample.hello; Arrive Sample.boom; Run 0; Run 1]))
  <= 1
  /\ task_step Sample.find_exact
       (sys_app
          (sys_run Sample.find_exact (sys_init Sample.single_permit_app)
             [Arrive Sample.hello; Arrive Sample.boom; Run 0; Run 1]))
       (TEntry Sample.boom)
     = None.
Proof.
  destruct (gate_bounds_running_handlers Sample.find_exact
              Sample.single_permit_app 1
              [Arrive Sample.hello; Arrive Sample.boom; Run 0; Run 1]
              Sample.boom)
    as (Hrun & _ & Hpark & _); [lia | reflexivity | reflexivity |].
  split; [exact Hrun | apply Hpark; reflexivity].
Defined.

Lemma release_lets_waiting_request_in_demo :
  sys_tasks
    (sys_run Sample.find_exact (sys_init Sample.single_permit_app)
       ([Arrive Sample.hello; Arrive Sample.boom; Run 0; Run 1; Run 0]
        ++ [Run 0; Run 1])) !! 1%nat
  = Some (TServing Sample.boom true).
Proof.
  refine (proj1 (proj2 (release_lets_waiting_request_in Sample.find_exact
                          Sample.single_permit_app 1
                          [Arrive Sample.hello; Arrive Sample.boom;
                           Run 0; Run 1; Run 0]
                          1 0 Sample.boom (Returned tt)
                          _ eq_refl eq_refl _ eq_refl eq_refl))).
  - lia.
  - discriminate.
Defined.

Lemma unmatched_request_passes_gate_demo :
  ServeHTTP Sample.find_exact Sample.nowhere Sample.demo_app
  = (Returned tt, Sample.demo_app,
     [EvAcquire; EvNotFound "/nowhere"; EvRelease]).
Proof.
  refine (proj1 (unmatched_request_passes_gate Sample.find_exact
                   Sample.demo_app Sample.nowhere eq_refl eq_refl)
            {| chan_cap := 2; chan_len := 2 |} eq_refl _).
  simpl. lia.
Defined.

Lemma parked_handler_keeps_permit_demo :
  ServeHTTP Sample.find_exact Sample.hang Sample.hanging_app
  = (Blocked,
     set_cc (Some {| chan_cap := 2; chan_len := 1 |}) Sample.hanging_app,
     [EvAcquire; EvFactory 8%nat; EvDefer 8%nat; EvInject 8%nat;
      EvInvoke "/hang" 8%nat])
  /\ permits_available
       (snd (fst (ServeHTTP Sample.find_exact Sample.hang Sample.hanging_app)))
     = 1.
Proof.
  destruct (parked_handler_keeps_permit Sample.find_exact
              Sample.hanging_app Sample.hang "/hang" (fun _ => Blocked)
              {| chan_cap := 2; chan_len := 2 |}
              eq_refl eq_refl eq_refl eq_refl eq_refl)
    as (Hrun & _ & Hleft); [simpl; lia|].
  split; [exact Hrun | exact Hleft].
Defined.

Lemma HandleFunc_then_ServeHTTP_demo :
  exists a',
    HandleFunc Sample.accepts_fresh "/fresh" (fun _ => Returned tt)
      Sample.demo_app
    = (Returned tt, a', [])
    /\ ServeHTTP Sample.find_exact Sample.fresh a'
       = (Returned tt, a',
          [EvAcquire; EvFactory 9%nat; EvDefer 9%nat; EvInject 9%nat;
           EvInvoke "/fresh" 9%nat; EvPerform 9%nat; EvRelease]).
Proof.
  destruct (HandleFunc_then_ServeHTTP Sample.find_exact Sample.accepts_fresh
              Sample.demo_app "/fresh" (fun _ => Returned tt) Sample.fresh)
    as (a' & Hreg & Hgated & _);
    [reflexivity | reflexivity | reflexivity | reflexivity | discriminate |].
  exists a'. split; [exact Hreg|].
  apply (Hgated {| chan_cap := 2; chan_len := 2 |}); [reflexivity|].
  simpl. lia.
Defined.

Lemma debug_paths_reach_profiler_demo :
  ServeHTTP Sample.find_exact Sample.heap Sample.demo_app
  = (Returned tt, Sample.demo_app, [EvProf "/debug/pprof/heap"]).
Proof.
  refine (proj1 (debug_paths_reach_profiler Sample.find_exact Sample.demo_app
                   Sample.heap _ _ _) _).
  - discriminate.
  - discriminate.
  - discriminate.
  - exists "pprof/heap". reflexivity.
Defined.

(** ** Application requests that match no route *)

